(** * Agent Builder chat (agen.py): a shallow embedding and its properties

    The program is a console chat around a six-node graph
    (parse, draft, present, confirm, update, finalize), a module-level
    memory dictionary and one remote text-generation call.  The embedding
    threads an explicit world (console, memory, call log) through an
    exception monad; finite maps are stdpp's [gmap]. *)

From Stdlib Require Import Ascii String.
From stdpp Require Import base option strings list gmap.

Local Open Scope string_scope.
Set Warnings "-register-all".

(** ** Python values and strings *)

Module Py.

(** The values that flow through the state and memory dictionaries:
    [None], booleans, [str] and [dict] with string keys.  A dict literal
    keeps its insertion order, hence the association list. *)
Inductive Value : Type :=
| VNone
| VBool (b : bool)
| VStr (s : string)
| VDict (d : list (string * Value)).

(** Truth value of an object, as used by [if x:] and the conditional
    expression. *)
Definition truthy (v : Value) : bool :=
  match v with
  | VNone => false
  | VBool b => b
  | VStr s => negb (String.eqb s "")
  | VDict d => match d with [] => false | _ :: _ => true end
  end.

(** [str.lower].  Strings are byte strings here: the ASCII letters are
    mapped, every other byte is left as it is. *)
Definition lower_ascii (c : ascii) : ascii :=
  let n := nat_of_ascii c in
  if (65 <=? n)%nat && (n <=? 90)%nat then ascii_of_nat (n + 32) else c.

Fixpoint lower (s : string) : string :=
  match s with
  | EmptyString => EmptyString
  | String c s' => String (lower_ascii c) (lower s')
  end.

(** [s.startswith(p)] *)
Fixpoint startswith (s p : string) {struct p} : bool :=
  match p with
  | EmptyString => true
  | String c p' =>
      match s with
      | EmptyString => false
      | String d s' => Ascii.eqb d c && startswith s' p'
      end
  end.

Fixpoint contains_char (c : ascii) (s : string) : bool :=
  match s with
  | EmptyString => false
  | String c' s' => Ascii.eqb c c' || contains_char c s'
  end.

Definition hex_digit (n : nat) : ascii :=
  if (n <? 10)%nat then ascii_of_nat (48 + n) else ascii_of_nat (87 + n).

Definition squote : ascii := ascii_of_nat 39.
Definition dquote : ascii := ascii_of_nat 34.
Definition backslash : ascii := ascii_of_nat 92.

(** One ASCII character of [repr] of a str, for the quote [q] chosen:
    backslash and the quote are escaped, control characters and DEL are
    written as escapes, the other characters stand for themselves.  It is
    applied to text that is ASCII throughout, see [repr_str]. *)
Definition repr_char (q : ascii) (c : ascii) : string :=
  let n := nat_of_ascii c in
  if Ascii.eqb c backslash then String backslash (String backslash EmptyString)
  else if Ascii.eqb c q then String backslash (String q EmptyString)
  else if (n =? 10)%nat then String backslash "n"
  else if (n =? 13)%nat then String backslash "r"
  else if (n =? 9)%nat then String backslash "t"
  else if (n <? 32)%nat || (n =? 127)%nat then
    String backslash
      (String "x" (String (hex_digit (n / 16)) (String (hex_digit (n mod 16)) EmptyString)))
  else String c EmptyString.

Fixpoint repr_chars (q : ascii) (s : string) : string :=
  match s with
  | EmptyString => EmptyString
  | String c s' => repr_char q c ++ repr_chars q s'
  end.

(** Text made of ASCII characters only. *)
Fixpoint ascii_only (s : string) : bool :=
  match s with
  | EmptyString => true
  | String c s' => (nat_of_ascii c <? 128)%nat && ascii_only s'
  end.

(** [repr] of an ASCII str: single quotes, unless the text has a single
    quote and no double quote. *)
Definition repr_ascii (s : string) : string :=
  let q := if contains_char squote s && negb (contains_char dquote s)
           then dquote else squote in
  String q (repr_chars q s ++ String q EmptyString).

(** [repr] of a str that holds characters outside ASCII.  Which of those
    are written as escapes is decided by the Unicode tables of the
    interpreter, which are no part of the program: the function is taken as
    given, and everything below holds whatever it is. *)
Class UnicodeRepr := repr_unicode : string -> string.

Section Repr.

Context {U : UnicodeRepr}.

(** [repr] of a str. *)
Definition repr_str (s : string) : string :=
  if ascii_only s then repr_ascii s else repr_unicode s.

(** [repr(v)]; the entries of a dict are joined with a comma and a space. *)
Fixpoint repr (v : Value) : string :=
  match v with
  | VNone => "None"
  | VBool true => "True"
  | VBool false => "False"
  | VStr s => repr_str s
  | VDict d =>
      let fix entries (l : list (string * Value)) : string :=
        match l with
        | [] => ""
        | [(k, x)] => repr_str k ++ ": " ++ repr x
        | (k, x) :: l' => repr_str k ++ ": " ++ repr x ++ ", " ++ entries l'
        end in
      "{" ++ entries d ++ "}"
  end.

(** [str(v)], which is also what an f-string field and [print] show. *)
Definition str (v : Value) : string :=
  match v with
  | VStr s => s
  | _ => repr v
  end.

End Repr.

End Py.

Import Py.

(** ** 2. Memory *)

(** [class AgentMemory(dict)]: a dictionary from string keys to values. *)
Abbreviation AgentMemory := (gmap string Value).

(** [self[key] = value] *)
Definition remember (key : string) (value : Value) (self : AgentMemory) : AgentMemory :=
  <[key := value]> self.

(** [self.get(key, default)] *)
Definition recall (key : string) (default : Value) (self : AgentMemory) : Value :=
  match self !! key with
  | Some v => v
  | None => default
  end.

(** ** The world around the program *)

(** Exceptions the program can raise.  [ServiceError] stands for whatever
    the remote client raises (network, quota, ...); [GraphRecursionError]
    is raised by the graph runtime when its step budget is used up. *)
Inductive Exception : Type :=
| KeyError (key : string)
| AttributeError
| TypeError
| IndexError
| EOFError
| ServiceError (msg : string)
| GraphRecursionError.

(** The response object of the text-generation client, as far as
    [gemini_call] looks into it.  An absent attribute and an attribute
    holding [None] are told apart for [candidates] ([hasattr] and the truth
    test); deeper down [None] is what the client stores for a missing part.
    [response_str] is [str(response)]. *)
Record Part : Type := mkPart { text : option string }.
Record Content : Type := mkContent { parts : option (list Part) }.
Record Candidate : Type := mkCandidate { content : option Content }.
Record Response : Type := mkResponse {
  candidates : option (option (list Candidate));
  response_str : string
}.

(** Ghost data: which helper issued a call, and the log entry of a call. *)
Inductive CallKind : Type := DraftCall | UpdateCall | FinalizeCall.

Record Call : Type := mkCall {
  call_kind : CallKind;
  call_prompt : string;
  call_result : Exception + Response
}.

(** The nodes of the graph, named as in [graph.add_node]. *)
Inductive Node : Type := NParse | NDraft | NPresent | NConfirm | NUpdate | NFinalize.

Definition node_name (n : Node) : string :=
  match n with
  | NParse => "parse"
  | NDraft => "draft"
  | NPresent => "present"
  | NConfirm => "confirm"
  | NUpdate => "update"
  | NFinalize => "finalize"
  end.

#[global] Instance CallKind_eq_dec : EqDecision CallKind.
Proof. solve_decision. Defined.
#[global] Instance Node_eq_dec : EqDecision Node.
Proof. solve_decision. Defined.

(** Console, the module-level [memory] object, and two ghost logs (calls
    made to the service, nodes run), oldest first.  [stdin] is the list of
    lines the user will type. *)
Record World : Type := mkWorld {
  stdin : list string;
  stdout : list string;
  memory : gmap string Value;
  calls : list Call;
  visited : list Node
}.

(** The remote service, [genai_client.models.generate_content]: what the
    call numbered [n] (counting from 0) answers to a prompt. *)
Abbreviation Service := (nat -> string -> Exception + Response).

(** The world at process start: nothing printed, [memory = AgentMemory()]. *)
Definition initial_world (lines : list string) : World :=
  mkWorld lines [] ∅ [] [].

(** The world with its memory replaced. *)
Definition with_memory (m : gmap string Value) (w : World) : World :=
  mkWorld (stdin w) (stdout w) m (calls w) (visited w).

(** ** State and exceptions *)

Inductive Outcome (A : Type) : Type :=
| Ret (a : A)
| Raise (e : Exception)
| OutOfFuel.
Arguments Ret {A} a.
Arguments Raise {A} e.
Arguments OutOfFuel {A}.

Definition M (A : Type) : Type := World -> Outcome A * World.

Definition ret {A} (a : A) : M A := fun w => (Ret a, w).
Definition raise {A} (e : Exception) : M A := fun w => (Raise e, w).
Definition bind {A B} (c : M A) (k : A -> M B) : M B :=
  fun w => match c w with
           | (Ret a, w') => k a w'
           | (Raise e, w') => (Raise e, w')
           | (OutOfFuel, w') => (OutOfFuel, w')
           end.

Notation "'let*' x ':=' c 'in' k" := (bind c (fun x => k))
  (at level 10, x pattern, c at level 100, k at level 200).
Notation "'exec' c 'in' k" := (bind c (fun _ => k))
  (at level 10, c at level 100, k at level 200).

(** [print(s)] *)
Definition print (s : string) : M unit :=
  fun w => (Ret tt, mkWorld (stdin w) (stdout w ++ [s])%list (memory w) (calls w) (visited w)).

(** [input(prompt)]: shows the prompt and reads a line; [EOFError] at the
    end of the input. *)
Definition input (prompt : string) : M string :=
  fun w =>
    let out := (stdout w ++ [prompt])%list in
    match stdin w with
    | [] => (Raise EOFError, mkWorld [] out (memory w) (calls w) (visited w))
    | line :: rest => (Ret line, mkWorld rest out (memory w) (calls w) (visited w))
    end.

(** [memory.remember(key, value)] and [memory.recall(key)] on the global. *)
Definition memory_remember (key : string) (value : Value) : M unit :=
  fun w => (Ret tt, mkWorld (stdin w) (stdout w) (remember key value (memory w))
                            (calls w) (visited w)).

Definition memory_recall (key : string) : M Value :=
  fun w => (Ret (recall key VNone (memory w)), w).

(** Ghost: note that a node starts running. *)
Definition enter (n : Node) : M unit :=
  fun w => (Ret tt, mkWorld (stdin w) (stdout w) (memory w) (calls w) (visited w ++ [n])%list).

Definition nl : string := String (ascii_of_nat 10) EmptyString.

(** The texts the program prints. *)
Definition present_header : string := nl ++ "📋 Proposed Workflow & Tools:".
Definition confirm_prompt : string := nl ++ "Do you confirm this? (yes / specify changes): ".
Definition welcome_message : string :=
  "🤖 Welcome to the Agent Builder Chat! Type 'exit' anytime to quit." ++ nl.
Definition requirements_prompt : string := "📝 Enter your agent requirements: ".
Definition final_header : string := nl ++ "✅ Final Workflow JSON:".
Definition exit_message : string := nl ++ "Exiting Agent Builder. Goodbye!".

(** How the graph runtime folds a node's returned dictionary into the
    running state.  [StateGraph(dict)] declares no keys, so the runtime
    keeps the whole state in one root channel and the returned dictionary
    replaces it ([RootChannel]); with declared keys the returned keys are
    written over the state and the others are kept ([KeyChannels]).  The
    program is modelled for both. *)
Inductive Channel : Type := RootChannel | KeyChannels.

Section Program.

Context {U : UnicodeRepr}.
Variable generate_content : Service.
Variable channel : Channel.
(** The runtime's step budget for one [invoke] (its recursion limit). *)
Variable recursion_limit : nat.

(** ** 3. Helper functions *)

(** The call itself, with the ghost log entry. *)
Definition models_generate_content (kind : CallKind) (prompt : string) : M Response :=
  fun w =>
    let r := generate_content (length (calls w)) prompt in
    let w' := mkWorld (stdin w) (stdout w) (memory w)
                      (calls w ++ [mkCall kind prompt r])%list (visited w) in
    match r with
    | inl e => (Raise e, w')
    | inr resp => (Ret resp, w')
    end.

(** [response.candidates[0].content.parts[0].text] *)
Definition first_text (c : Candidate) : Outcome Value :=
  match content c with
  | None => Raise AttributeError
  | Some ct =>
      match parts ct with
      | None => Raise TypeError
      | Some [] => Raise IndexError
      | Some (p :: _) =>
          match text p with
          | None => Ret VNone
          | Some s => Ret (VStr s)
          end
      end
  end.

(** What [gemini_call] does with the response it got. *)
Definition response_text (response : Response) : Outcome Value :=
  match candidates response with
  | Some (Some (c :: _)) => first_text c
  | _ => Ret (VStr (response_str response))
  end.

Definition gemini_call (kind : CallKind) (prompt : string) : M Value :=
  let* response := models_generate_content kind prompt in
  fun w => (response_text response, w).

Definition draft_prompt (parsed : Value) : string :=
  nl ++ "    User requirements parsed: " ++ str parsed ++ nl ++
  nl ++
  "    Create a draft workflow and list of tools needed to build the agent." ++ nl ++
  "    Do not return JSON yet, just human-readable details." ++ nl ++
  "    ".

Definition generate_draft_with_gemini (parsed : Value) : M Value :=
  gemini_call DraftCall (draft_prompt parsed).

Definition update_prompt (draft change_request : Value) : string :=
  nl ++ "    Current draft workflow:" ++ nl ++
  "    " ++ str draft ++ nl ++
  nl ++
  "    User requested changes:" ++ nl ++
  "    " ++ str change_request ++ nl ++
  nl ++
  "    Update only the necessary parts of the workflow, don't rebuild everything." ++ nl ++
  "    ".

Definition update_workflow_with_gemini (draft change_request : Value) : M Value :=
  gemini_call UpdateCall (update_prompt draft change_request).

Definition finalize_prompt (draft : Value) : string :=
  nl ++ "    Convert the following agent workflow and tools into a clean JSON format:" ++ nl ++
  nl ++
  "    " ++ str draft ++ nl ++
  "    ".

Definition finalize_json_with_gemini (draft : Value) : M Value :=
  gemini_call FinalizeCall (finalize_prompt draft).

(** ** 4. Node functions *)

(** The state dictionary handed to a node, and the dictionary it returns. *)
Abbreviation State := (gmap string Value).

Definition parse_requirements (state : State) : M State :=
  match state !! "requirements" with
  | None => raise (KeyError "requirements")
  | Some user_input =>
      let parsed := VDict [("goal", user_input)] in
      exec memory_remember "requirements" user_input in
      exec memory_remember "parsed" parsed in
      ret {["parsed" := parsed]}
  end.

Definition draft_workflow (state : State) : M State :=
  let* parsed := memory_recall "parsed" in
  let* workflow := generate_draft_with_gemini parsed in
  exec memory_remember "draft" workflow in
  ret {["draft" := workflow]}.

Definition present_workflow (state : State) : M State :=
  let* draft := memory_recall "draft" in
  exec print present_header in
  exec print (str draft) in
  let* user_feedback := input confirm_prompt in
  ret {["user_feedback" := VStr user_feedback]}.

(** [state.get("user_feedback", "")]; [.lower()] exists on str only. *)
Definition confirm_node (state : State) : M State :=
  match default (VStr "") (state !! "user_feedback") with
  | VStr feedback =>
      if startswith (lower feedback) "yes" then
        exec memory_remember "confirmed" (VBool true) in
        ret {["confirmed" := VBool true]}
      else
        exec memory_remember "confirmed" (VBool false) in
        exec memory_remember "user_feedback" (VStr feedback) in
        ret (<["confirmed" := VBool false]> {["user_feedback" := VStr feedback]})
  | _ => raise AttributeError
  end.

Definition update_workflow (state : State) : M State :=
  let* draft := memory_recall "draft" in
  let* change_request := memory_recall "user_feedback" in
  let* updated := update_workflow_with_gemini draft change_request in
  exec memory_remember "draft" updated in
  ret {["draft" := updated]}.

Definition finalize_json (state : State) : M State :=
  let* draft := memory_recall "draft" in
  let* final_json := finalize_json_with_gemini draft in
  exec memory_remember "final_json" final_json in
  ret {["final_json" := final_json]}.

(** ** 5. Build graph *)

Definition node_action (n : Node) : State -> M State :=
  match n with
  | NParse => parse_requirements
  | NDraft => draft_workflow
  | NPresent => present_workflow
  | NConfirm => confirm_node
  | NUpdate => update_workflow
  | NFinalize => finalize_json
  end.

(** [state.get("confirmed")] decides. *)
Definition confirm_router (state : State) : Node :=
  if truthy (default VNone (state !! "confirmed")) then NFinalize else NUpdate.

(** The edges; [None] is [END]. *)
Definition next_node (n : Node) (state : State) : option Node :=
  match n with
  | NParse => Some NDraft
  | NDraft => Some NPresent
  | NUpdate => Some NPresent
  | NConfirm => Some (confirm_router state)
  | NPresent => Some NConfirm
  | NFinalize => None
  end.

Definition apply_update (state upd : State) : State :=
  match channel with
  | RootChannel => upd
  | KeyChannels => upd ∪ state
  end.

(** One node: run it, fold its result into the state, pick the edge. *)
Definition step (n : Node) (state : State) : M (option Node * State) :=
  exec enter n in
  let* upd := node_action n state in
  let state' := apply_update state upd in
  ret (next_node n state', state').

(** The compiled graph run from node [n] with [budget] steps left.  The
    runtime checks its step limit before it looks whether a node is left to
    run: a run whose last node uses the last allowed step ends in
    [GraphRecursionError], although all its nodes ran. *)
Fixpoint run_from (budget : nat) (n : Node) (state : State) : M State :=
  match budget with
  | O => raise GraphRecursionError
  | S budget' =>
      let* r := step n state in
      match r with
      | (None, state') =>
          match budget' with
          | O => raise GraphRecursionError
          | S _ => ret state'
          end
      | (Some n', state') => run_from budget' n' state'
      end
  end.

(** [agent_graph.invoke(state)], entry point [parse]. *)
Definition agent_graph_invoke (state : State) : M State :=
  run_from recursion_limit NParse state.

(** ** 6. Chat-style run loop *)

Definition out_of_fuel {A} : M A := fun w => (OutOfFuel, w).

(** The [while True] loop of [run_chat_agent]; [fuel] bounds the number of
    iterations that are looked at. *)
Fixpoint chat_loop (fuel : nat) (state : State) : M unit :=
  match fuel with
  | O => out_of_fuel
  | S fuel' =>
      let* state := agent_graph_invoke state in
      let* final_json := memory_recall "final_json" in
      if truthy final_json then
        exec print final_header in
        print (str final_json)
      else
        match default (VStr "") (state !! "user_feedback") with
        | VStr user_feedback =>
            if String.eqb (lower user_feedback) "exit" then
              print exit_message
            else chat_loop fuel' state
        | _ => raise AttributeError
        end
  end.

Definition run_chat_agent (fuel : nat) : M unit :=
  exec print welcome_message in
  let* user_req := input requirements_prompt in
  if String.eqb (lower user_req) "exit" then ret tt
  else chat_loop fuel {["requirements" := VStr user_req]}.

End Program.

(** ** Sample services and observations used in the examples *)

(** A well-formed response carrying [s] as the text of its first part. *)
Definition text_response (s : string) : Response :=
  mkResponse (Some (Some [mkCandidate (Some (mkContent (Some [mkPart (Some s)])))])) s.

(** A [repr] for the examples, which use ASCII text only. *)
Definition plain_unicode : UnicodeRepr := repr_ascii.

(** A service that answers every prompt with the same text. *)
Definition constant_service (s : string) : Service :=
  fun _ _ => inr (text_response s).

(** A service whose every call fails. *)
Definition failing_service (msg : string) : Service :=
  fun _ _ => inl (ServiceError msg).

(** One invocation of the graph on replies that never confirm. *)
Definition rejected_run : Outcome (gmap string Value) * World :=
  agent_graph_invoke (U := plain_unicode) (constant_service "workflow") RootChannel 25
    {["requirements" := VStr "build a web scraper"]}
    (initial_world ["add error handling"; "no"; "exit"]).

(** A run in which the first call to the service fails. *)
Definition failed_run : Outcome unit * World :=
  run_chat_agent (U := plain_unicode) (failing_service "quota exceeded") RootChannel 25 1
    (initial_world ["build a web scraper"; "yes"]).

(** Runs in which the user types "exit" at the confirmation prompt, with
    nothing after it and with a later "yes". *)
Definition exit_run (channel : Channel) (replies : list string) : Outcome unit * World :=
  run_chat_agent (U := plain_unicode) (constant_service "workflow") channel 25 3
    (initial_world ("build a web scraper" :: replies)).

(** Number of logged calls of a kind. *)
Definition count_calls (k : CallKind) (log : list Call) : nat :=
  length (filter (fun c => call_kind c = k) log).


(** The node after [n] as long as the user does not confirm. *)
Definition reject_next (n : Node) : Node :=
  match n with
  | NParse => NDraft
  | NDraft => NPresent
  | NPresent => NConfirm
  | NConfirm => NUpdate
  | NUpdate => NPresent
  | NFinalize => NFinalize
  end.

(** The first [len] nodes of the path that starts at [n] and never confirms:
    from the entry point, parse, draft, then present, confirm, update over
    and over. *)
Fixpoint reject_path (len : nat) (n : Node) : list Node :=
  match len with
  | O => []
  | S len' => n :: reject_path len' (reject_next n)
  end.

(** Whether a reply confirms: the test of [confirm_node]. *)
Definition confirms (reply : string) : bool := startswith (lower reply) "yes".

(** A reply that does not confirm. *)
Definition non_confirming (reply : string) : Prop := confirms reply = false.

(** A state whose pending feedback, as [confirm_node] reads it, does not
    confirm. *)
Definition rejecting (state : gmap string Value) : Prop :=
  match state !! "user_feedback" with
  | Some (VStr feedback) => non_confirming feedback
  | _ => True
  end.

(** What one step can do while the user does not confirm. *)
Definition rejecting_step (n : Node) (w : World) (o : Outcome (option Node * gmap string Value))
    (w' : World) : Prop :=
  visited w' = (visited w ++ [n])%list
  /\ memory w' !! "final_json" = memory w !! "final_json"
  /\ count_calls FinalizeCall (calls w') = count_calls FinalizeCall (calls w)
  /\ Forall non_confirming (stdin w')
  /\ match o with
     | Ret (nx, state') =>
         nx = Some (reject_next n) /\ (reject_next n = NConfirm -> rejecting state')
     | Raise _ => True
     | OutOfFuel => False
     end.

(** A state whose [user_feedback], as the driver reads it after an
    invocation, is not the exit word. *)
Definition exit_free (state : gmap string Value) : Prop :=
  match default (VStr "") (state !! "user_feedback") with
  | VStr feedback => lower feedback <> "exit"
  | _ => True
  end.

(** The exception a logged call ended in, if any: raised by the service,
    or raised while the text was taken out of the response. *)
Definition call_failure (c : Call) : option Exception :=
  match call_result c with
  | inl e => Some e
  | inr response =>
      match response_text response with
      | Raise e => Some e
      | _ => None
      end
  end.

(** A log in which no call failed. *)
Definition quiet (log : list Call) : Prop :=
  Forall (fun c => call_failure c = None) log.

(** A computation that lets every failed call surface: started on a quiet
    log, whenever it leaves a failed call in the log its own outcome is that
    call's exception. *)
Definition faithful {A} (c : M A) : Prop :=
  forall w o w',
    quiet (calls w) ->
    c w = (o, w') ->
    forall call e, call ∈ calls w' -> call_failure call = Some e -> o = Raise e.

(** A response without candidates, as the service sends for a prompt it
    declines to answer. *)
Definition blocked_response : Response :=
  mkResponse (Some None) "candidates=None".

Definition blocked_service : Service := fun _ _ => inr blocked_response.

(** A response from which [gemini_call] can take the text of a first part. *)
Definition well_formed (response : Response) : bool :=
  match candidates response with
  | Some (Some (c :: _)) =>
      match content c with
      | Some ct =>
          match parts ct with
          | Some (p :: _) => bool_decide (is_Some (text p))
          | _ => false
          end
      | None => false
      end
  | _ => false
  end.

(** The calls a node makes to the service. *)
Definition node_calls (n : Node) : list CallKind :=
  match n with
  | NDraft => [DraftCall]
  | NUpdate => [UpdateCall]
  | NFinalize => [FinalizeCall]
  | _ => []
  end.

(** The memory keys a node writes, and the keys of the dictionary it
    returns. *)
Definition node_writes (n : Node) : list string :=
  match n with
  | NParse => ["requirements"; "parsed"]
  | NDraft => ["draft"]
  | NPresent => []
  | NConfirm => ["confirmed"; "user_feedback"]
  | NUpdate => ["draft"]
  | NFinalize => ["final_json"]
  end.

Definition node_returns (n : Node) : list string :=
  match n with
  | NParse => ["parsed"]
  | NDraft => ["draft"]
  | NPresent => ["user_feedback"]
  | NConfirm => ["confirmed"; "user_feedback"]
  | NUpdate => ["draft"]
  | NFinalize => ["final_json"]
  end.

(** The nodes run from the first presentation on when [rejected] replies
    ask for changes and the next one confirms. *)
Fixpoint accept_path (rejected : nat) : list Node :=
  match rejected with
  | O => [NPresent; NConfirm; NFinalize]
  | S k => NPresent :: NConfirm :: NUpdate :: accept_path k
  end.

(** The nodes run from the first presentation on when [rejected] replies
    ask for changes and the input then ends. *)
Fixpoint abandoned_path (rejected : nat) : list Node :=
  match rejected with
  | O => [NPresent]
  | S k => NPresent :: NConfirm :: NUpdate :: abandoned_path k
  end.

(** A service that answers every call with a response from which a text
    can be taken. *)
Definition answers (svc : Service) : Prop :=
  forall (n : nat) (prompt : string),
    exists response v, svc n prompt = inr response /\ response_text response = Ret v.

(** Memory holds nothing of the requirements yet, or holds the text [req]
    and the mapping built from it. *)
Definition requirements_kept (req : string) (m : gmap string Value) : Prop :=
  (m !! "requirements" = None /\ m !! "parsed" = None)
  \/ (m !! "requirements" = Some (VStr req)
      /\ m !! "parsed" = Some (VDict [("goal", VStr req)])).

(** A computation whose logged calls are those of the nodes it runs, in
    order. *)
Definition tracked {A} (c : M A) : Prop :=
  forall w o w',
    c w = (o, w') ->
    exists tr cs,
      visited w' = (visited w ++ tr)%list
      /\ calls w' = (calls w ++ cs)%list
      /\ map call_kind cs = flat_map node_calls tr.

(** A state that holds no requirements or the text [req]. *)
Definition requirements_in_state (req : string) (state : gmap string Value) : Prop :=
  state !! "requirements" = None \/ state !! "requirements" = Some (VStr req).

(** A computation that removes no key from memory. *)
Definition growing {A} (c : M A) : Prop :=
  forall w o w', c w = (o, w') -> dom (memory w) ⊆ dom (memory w').

(** An invocation with one change request before the confirming reply, and
    the state it returns. *)
Definition revision_invocation : Outcome (gmap string Value) * World :=
  agent_graph_invoke (U := plain_unicode) (constant_service "workflow") KeyChannels 25
    {["requirements" := VStr "build a web scraper"]}
    (initial_world ["add error handling"; "yes"; "thanks"]).

Definition revision_state : gmap string Value :=
  match fst revision_invocation with
  | Ret state => state
  | _ => ∅
  end.

(** A run that is left at the requirements prompt. *)
Definition left_run : Outcome unit * World :=
  run_chat_agent (U := plain_unicode) (constant_service "workflow") RootChannel 25 5 (initial_world ["EXIT"]).

(** A state whose [user_feedback], as the driver reads it after an
    invocation, is a text other than the exit word. *)
Definition text_feedback (state : gmap string Value) : Prop :=
  exists feedback,
    default (VStr "") (state !! "user_feedback") = VStr feedback
    /\ lower feedback <> "exit".

(** An invocation whose artifact is empty, and the state it returns. *)
Definition empty_invocation : Outcome (gmap string Value) * World :=
  agent_graph_invoke (U := plain_unicode) (constant_service "") RootChannel 25
    {["requirements" := VStr "build a web scraper"]}
    (initial_world ["no"; "yes"; "yes"]).

Definition empty_state : gmap string Value :=
  match fst empty_invocation with
  | Ret state => state
  | _ => ∅
  end.

(** * Properties *)

Local Open Scope list_scope.

(** ** Strings *)

Lemma lower_ascii_idempotent (c : ascii) : lower_ascii (lower_ascii c) = lower_ascii c.
Proof.
  destruct c as [[] [] [] [] [] [] [] []]; reflexivity.
Qed.

Lemma lower_idempotent (s : string) : lower (lower s) = lower s.
Proof.
  induction s as [|c s IH]; simpl; [reflexivity|].
  by rewrite lower_ascii_idempotent, IH.
Qed.

Lemma lower_ascii_y (c : ascii) : lower_ascii c = "y"%char <-> c = "y"%char \/ c = "Y"%char.
Proof.
  split.
  - destruct c as [[] [] [] [] [] [] [] []]; vm_compute; intros H;
      first [discriminate H | by left | by right].
  - intros [-> | ->]; reflexivity.
Qed.

Lemma lower_ascii_e (c : ascii) : lower_ascii c = "e"%char <-> c = "e"%char \/ c = "E"%char.
Proof.
  split.
  - destruct c as [[] [] [] [] [] [] [] []]; vm_compute; intros H;
      first [discriminate H | by left | by right].
  - intros [-> | ->]; reflexivity.
Qed.

Lemma lower_ascii_s (c : ascii) : lower_ascii c = "s"%char <-> c = "s"%char \/ c = "S"%char.
Proof.
  split.
  - destruct c as [[] [] [] [] [] [] [] []]; vm_compute; intros H;
      first [discriminate H | by left | by right].
  - intros [-> | ->]; reflexivity.
Qed.

(** The test of [confirm_node], spelled out: the text begins with the
    letters y, e, s in either case. *)
Lemma confirming_spec (s : string) :
  startswith (lower s) "yes" = true <->
  exists c1 c2 c3 rest,
    s = String c1 (String c2 (String c3 rest)) /\
    (c1 = "y"%char \/ c1 = "Y"%char) /\
    (c2 = "e"%char \/ c2 = "E"%char) /\
    (c3 = "s"%char \/ c3 = "S"%char).
Proof.
  split.
  - destruct s as [|c1 [|c2 [|c3 rest]]]; cbn [lower startswith]; try discriminate.
    + rewrite andb_false_r. discriminate.
    + rewrite !andb_false_r. discriminate.
    + rewrite !andb_true_iff, !Ascii.eqb_eq. intros (H1 & H2 & H3 & _).
      exists c1, c2, c3, rest. split; [reflexivity|].
      by rewrite <- lower_ascii_y, <- lower_ascii_e, <- lower_ascii_s.
  - intros (c1 & c2 & c3 & rest & -> & H1 & H2 & H3).
    apply lower_ascii_y in H1. apply lower_ascii_e in H2. apply lower_ascii_s in H3.
    cbn [lower startswith]. rewrite H1, H2, H3. reflexivity.
Qed.

(** ** Session memory *)

(** C8. [remember] inserts an absent key and overwrites a present one,
    leaving every other key alone; [recall] returns the stored value of a
    present key and the given default for an absent one; so [recall] after
    [remember] of the same key returns the remembered value, and [recall]
    on a memory that never stored the key returns the default. *)
Theorem remember_recall_contract
    (key k' : string) (value old default : Value) (self : gmap string Value) :
  remember key value (delete key self) !! key = Some value
  /\ remember key value (<[key := old]> self) !! key = Some value
  /\ remember key value self !! k' = (if decide (key = k') then Some value else self !! k')
  /\ recall key default (<[key := old]> self) = old
  /\ recall key default (delete key self) = default
  /\ recall key default (remember key value self) = value
  /\ recall key default ∅ = default.
Proof.
  unfold remember, recall. repeat split.
  - apply lookup_insert_eq.
  - apply lookup_insert_eq.
  - apply lookup_insert.
  - by rewrite lookup_insert_eq.
  - by rewrite lookup_delete_eq.
  - by rewrite lookup_insert_eq.
Qed.

(** ** The nodes, one at a time *)

Lemma confirm_node_yes (feedback : string) (state : gmap string Value) (w : World) :
  state !! "user_feedback" = Some (VStr feedback) ->
  startswith (lower feedback) "yes" = true ->
  confirm_node state w =
    (Ret {["confirmed" := VBool true]},
     with_memory (<["confirmed" := VBool true]> (memory w)) w).
Proof.
  intros Hfb Hyes. unfold confirm_node. rewrite Hfb. cbn [from_option id]. rewrite Hyes.
  reflexivity.
Qed.

Lemma confirm_node_no (feedback : string) (state : gmap string Value) (w : World) :
  state !! "user_feedback" = Some (VStr feedback) ->
  startswith (lower feedback) "yes" = false ->
  confirm_node state w =
    (Ret (<["confirmed" := VBool false]> {["user_feedback" := VStr feedback]}),
     with_memory (<["user_feedback" := VStr feedback]>
                    (<["confirmed" := VBool false]> (memory w))) w).
Proof.
  intros Hfb Hno. unfold confirm_node. rewrite Hfb. cbn [from_option id]. rewrite Hno.
  reflexivity.
Qed.

Lemma confirm_node_absent (state : gmap string Value) (w : World) :
  state !! "user_feedback" = None ->
  confirm_node state w =
    (Ret (<["confirmed" := VBool false]> {["user_feedback" := VStr ""]}),
     with_memory (<["user_feedback" := VStr ""]>
                    (<["confirmed" := VBool false]> (memory w))) w).
Proof.
  intros Hfb. unfold confirm_node. rewrite Hfb. reflexivity.
Qed.

(** C1. On a state whose [user_feedback] is the string [feedback], the
    confirm step returns [confirmed] and stores [confirmed] in memory, both
    equal to whether [feedback] lowercased starts with "yes"; when it does
    not, the returned update carries the feedback and memory's
    [user_feedback] becomes exactly that text.  "Yes please" gives
    [confirmed = True]; "change the tool list" gives [confirmed = False]
    with that text stored. *)
Theorem confirm_node_sets_confirmed (feedback : string) (state : gmap string Value) (w : World) :
  (exists upd w',
      confirm_node (<["user_feedback" := VStr feedback]> state) w = (Ret upd, w')
      /\ upd !! "confirmed" = Some (VBool (confirms feedback))
      /\ memory w' !! "confirmed" = Some (VBool (confirms feedback))
      /\ confirm_router upd = (if confirms feedback then NFinalize else NUpdate)
      /\ (if confirms feedback
          then memory w' !! "user_feedback" = memory w !! "user_feedback"
          else upd !! "user_feedback" = Some (VStr feedback)
               /\ memory w' !! "user_feedback" = Some (VStr feedback)))
  /\ confirms "Yes please" = true
  /\ confirms "change the tool list" = false.
Proof.
  split; [|split; reflexivity].
  destruct (confirms feedback) eqn:Hyes.
  - eexists _, _. split.
    { apply (confirm_node_yes feedback); [apply lookup_insert_eq | exact Hyes]. }
    cbn [memory with_memory].
    split; [apply lookup_singleton_eq|].
    split; [apply lookup_insert_eq|].
    split; [unfold confirm_router; by rewrite lookup_singleton_eq|].
    by rewrite lookup_insert_ne.
  - eexists _, _. split.
    { apply (confirm_node_no feedback); [apply lookup_insert_eq | exact Hyes]. }
    cbn [memory with_memory].
    split; [apply lookup_insert_eq|].
    split; [by rewrite lookup_insert_ne, lookup_insert_eq|].
    split; [unfold confirm_router; by rewrite lookup_insert_eq|].
    split; [by rewrite lookup_insert_ne, lookup_singleton_eq|].
    apply lookup_insert_eq.
Qed.

(** C9. On a state without the [user_feedback] key the confirm step does
    not raise: it takes the feedback to be the empty string, returns and
    stores [confirmed = False], stores the empty string as the pending
    feedback, and the router, on the state that results under either
    channel, picks the update step. *)
Theorem confirm_node_without_feedback
    (channel : Channel) (state : gmap string Value) (w : World) :
  state !! "user_feedback" = None ->
  exists upd w',
    confirm_node state w = (Ret upd, w')
    /\ upd !! "confirmed" = Some (VBool false)
    /\ upd !! "user_feedback" = Some (VStr "")
    /\ memory w' !! "confirmed" = Some (VBool false)
    /\ memory w' !! "user_feedback" = Some (VStr "")
    /\ confirm_router (apply_update channel state upd) = NUpdate
    /\ next_node NConfirm (apply_update channel state upd) = Some NUpdate.
Proof.
  intros Habsent. eexists _, _. split; [by apply confirm_node_absent|].
  assert (Hrouter : confirm_router
            (apply_update channel state
               (<["confirmed" := VBool false]> {["user_feedback" := VStr ""]})) = NUpdate).
  { unfold confirm_router, apply_update. destruct channel.
    - by rewrite lookup_insert_eq.
    - rewrite lookup_union, lookup_insert_eq. by destruct (state !! "confirmed"). }
  cbn [memory with_memory].
  split; [apply lookup_insert_eq|].
  split; [by rewrite lookup_insert_ne, lookup_singleton_eq|].
  split; [by rewrite lookup_insert_ne, lookup_insert_eq|].
  split; [apply lookup_insert_eq|].
  split; [exact Hrouter|].
  cbn [next_node]. by rewrite Hrouter.
Qed.

Lemma confirm_node_without_feedback_witness :
  exists upd w',
    confirm_node ({["requirements" := VStr "build a web scraper"]}) (initial_world []) = (Ret upd, w')
    /\ upd !! "confirmed" = Some (VBool false)
    /\ upd !! "user_feedback" = Some (VStr "")
    /\ memory w' !! "confirmed" = Some (VBool false)
    /\ memory w' !! "user_feedback" = Some (VStr "")
    /\ confirm_router (apply_update RootChannel {["requirements" := VStr "build a web scraper"]} upd) = NUpdate
    /\ next_node NConfirm (apply_update RootChannel {["requirements" := VStr "build a web scraper"]} upd) = Some NUpdate.
Proof.
  apply (confirm_node_without_feedback RootChannel
           {["requirements" := VStr "build a web scraper"]} (initial_world [])).
  reflexivity.
Defined.

(** C10. When the feedback lowercased starts with "yes", the confirm step
    writes the [confirmed] key of memory and nothing else: every other
    key, among them [draft], [requirements], [parsed], [user_feedback] and
    [final_json], keeps the value it had.  On the other branch memory's
    [user_feedback] is overwritten with the feedback. *)
Theorem confirm_node_frame (feedback : string) (state : gmap string Value) (w : World) :
  state !! "user_feedback" = Some (VStr feedback) ->
  exists upd w',
    confirm_node state w = (Ret upd, w')
    /\ (if confirms feedback then
          memory w' = <["confirmed" := VBool true]> (memory w)
          /\ (forall k, k <> "confirmed" -> memory w' !! k = memory w !! k)
          /\ memory w' !! "draft" = memory w !! "draft"
          /\ memory w' !! "requirements" = memory w !! "requirements"
          /\ memory w' !! "parsed" = memory w !! "parsed"
          /\ memory w' !! "user_feedback" = memory w !! "user_feedback"
          /\ memory w' !! "final_json" = memory w !! "final_json"
        else
          memory w' !! "user_feedback" = Some (VStr feedback))
    /\ stdin w' = stdin w /\ stdout w' = stdout w /\ calls w' = calls w.
Proof.
  intros Hfb. destruct (confirms feedback) eqn:Hyes.
  - eexists _, _. split; [by apply (confirm_node_yes feedback)|]. cbn [memory stdin stdout calls with_memory].
    split; [|done].
    split; [reflexivity|].
    split; [intros k Hk; by rewrite lookup_insert_ne|].
    repeat split; by rewrite lookup_insert_ne.
  - eexists _, _. split; [by apply (confirm_node_no feedback)|]. cbn [memory stdin stdout calls with_memory].
    split; [|done]. apply lookup_insert_eq.
Qed.

Lemma confirm_node_frame_witness :
  exists upd w',
    confirm_node {["user_feedback" := VStr "Yes please"]}
      (with_memory {["user_feedback" := VStr "add a step"]} (initial_world [])) = (Ret upd, w')
    /\ memory w' !! "user_feedback" = Some (VStr "add a step").
Proof.
  destruct (confirm_node_frame "Yes please" {["user_feedback" := VStr "Yes please"]}
              (with_memory {["user_feedback" := VStr "add a step"]} (initial_world [])))
    as (upd & w' & Hrun & Hframe & _).
  - reflexivity.
  - exists upd, w'. split; [exact Hrun|].
    simpl in Hframe. destruct Hframe as (_ & _ & _ & _ & _ & Hfb & _).
    rewrite Hfb. reflexivity.
Defined.

(** C6. On a state holding the string [requirements] under the
    [requirements] key, the parse step returns exactly
    [{parsed: {goal: requirements}}] and leaves the raw text under
    [requirements] and the [{goal: requirements}] mapping under [parsed]
    in memory, touching no other key.  This holds for every string, the
    non-empty ones in particular. *)
Theorem parse_requirements_stores (requirements : string) (state : gmap string Value) (w : World) :
  state !! "requirements" = Some (VStr requirements) ->
  exists w',
    parse_requirements state w =
      (Ret {["parsed" := VDict [("goal", VStr requirements)]]}, w')
    /\ memory w' !! "requirements" = Some (VStr requirements)
    /\ memory w' !! "parsed" = Some (VDict [("goal", VStr requirements)])
    /\ (forall k, k <> "requirements" -> k <> "parsed" -> memory w' !! k = memory w !! k).
Proof.
  intros Hreq. unfold parse_requirements. rewrite Hreq.
  eexists. split; [reflexivity|]. simpl. unfold remember. repeat split.
  - by rewrite lookup_insert_ne, lookup_insert_eq.
  - apply lookup_insert_eq.
  - intros k H1 H2. by rewrite !lookup_insert_ne.
Qed.

Lemma parse_requirements_stores_witness :
  exists w',
    parse_requirements {["requirements" := VStr "build a web scraper"]} (initial_world []) =
      (Ret {["parsed" := VDict [("goal", VStr "build a web scraper")]]}, w')
    /\ memory w' !! "requirements" = Some (VStr "build a web scraper")
    /\ memory w' !! "parsed" = Some (VDict [("goal", VStr "build a web scraper")])
    /\ (forall k, k <> "requirements" -> k <> "parsed" ->
                  memory w' !! k = memory (initial_world []) !! k).
Proof.
  apply (parse_requirements_stores "build a web scraper"
           {["requirements" := VStr "build a web scraper"]} (initial_world [])).
  reflexivity.
Defined.

(** ** One step of the graph *)

Section Steps.

Context {U : UnicodeRepr}.
Variable svc : Service.
Variable channel : Channel.

Implicit Types (state upd : gmap string Value) (w : World).

Lemma apply_update_lookup state upd k v :
  upd !! k = Some v -> apply_update channel state upd !! k = Some v.
Proof.
  intros H. unfold apply_update. destruct channel; [exact H|].
  by apply lookup_union_Some_l.
Qed.

Lemma router_after_update state upd (b : bool) :
  upd !! "confirmed" = Some (VBool b) ->
  confirm_router (apply_update channel state upd) = if b then NFinalize else NUpdate.
Proof.
  intros H. unfold confirm_router.
  by rewrite (apply_update_lookup _ _ _ _ H).
Qed.

Lemma gemini_call_returns kind prompt w response v :
  svc (length (calls w)) prompt = inr response ->
  response_text response = Ret v ->
  gemini_call svc kind prompt w =
    (Ret v, mkWorld (stdin w) (stdout w) (memory w)
                    (calls w ++ [mkCall kind prompt (inr response)]) (visited w)).
Proof.
  intros Hsvc Htext. unfold gemini_call, bind, models_generate_content.
  rewrite Hsvc. by rewrite Htext.
Qed.

Lemma step_parse state w r :
  state !! "requirements" = Some r ->
  step svc channel NParse state w =
    (Ret (Some NDraft, apply_update channel state {["parsed" := VDict [("goal", r)]]}),
     mkWorld (stdin w) (stdout w)
             (<["parsed" := VDict [("goal", r)]]> (<["requirements" := r]> (memory w)))
             (calls w) (visited w ++ [NParse])).
Proof.
  intros H. unfold step, bind, enter. cbn [node_action]. unfold parse_requirements.
  rewrite H. reflexivity.
Qed.

Lemma step_draft state w response v :
  svc (length (calls w)) (draft_prompt (recall "parsed" VNone (memory w))) = inr response ->
  response_text response = Ret v ->
  step svc channel NDraft state w =
    (Ret (Some NPresent, apply_update channel state {["draft" := v]}),
     mkWorld (stdin w) (stdout w) (<["draft" := v]> (memory w))
             (calls w ++ [mkCall DraftCall (draft_prompt (recall "parsed" VNone (memory w)))
                                 (inr response)])
             (visited w ++ [NDraft])).
Proof.
  intros Hsvc Htext. unfold step, bind, enter. cbn [node_action].
  unfold draft_workflow, bind, memory_recall, generate_draft_with_gemini.
  cbn [memory calls stdin stdout visited].
  erewrite gemini_call_returns; [reflexivity| exact Hsvc | exact Htext].
Qed.

Lemma step_present state w line rest :
  stdin w = line :: rest ->
  step svc channel NPresent state w =
    (Ret (Some NConfirm, apply_update channel state {["user_feedback" := VStr line]}),
     mkWorld rest
             (((stdout w ++ [present_header]) ++ [str (recall "draft" VNone (memory w))])
                ++ [confirm_prompt])
             (memory w) (calls w) (visited w ++ [NPresent])).
Proof.
  intros H. unfold step, bind, enter. cbn [node_action].
  unfold present_workflow, bind, memory_recall, print, input.
  cbn [memory calls stdin stdout visited]. rewrite H. reflexivity.
Qed.

Lemma step_present_eof state w :
  stdin w = [] ->
  step svc channel NPresent state w =
    (Raise EOFError,
     mkWorld []
             (((stdout w ++ [present_header]) ++ [str (recall "draft" VNone (memory w))])
                ++ [confirm_prompt])
             (memory w) (calls w) (visited w ++ [NPresent])).
Proof.
  intros H. unfold step, bind, enter. cbn [node_action].
  unfold present_workflow, bind, memory_recall, print, input.
  cbn [memory calls stdin stdout visited]. rewrite H. reflexivity.
Qed.

Lemma step_confirm_yes state w feedback :
  state !! "user_feedback" = Some (VStr feedback) ->
  startswith (lower feedback) "yes" = true ->
  step svc channel NConfirm state w =
    (Ret (Some NFinalize, apply_update channel state {["confirmed" := VBool true]}),
     mkWorld (stdin w) (stdout w) (<["confirmed" := VBool true]> (memory w))
             (calls w) (visited w ++ [NConfirm])).
Proof.
  intros Hfb Hyes. unfold step, bind, enter. cbn [node_action].
  rewrite (confirm_node_yes feedback) by done.
  unfold ret. cbn [next_node].
  rewrite (router_after_update _ _ true) by apply lookup_singleton_eq.
  reflexivity.
Qed.

Lemma step_confirm_no state w feedback :
  state !! "user_feedback" = Some (VStr feedback) ->
  startswith (lower feedback) "yes" = false ->
  step svc channel NConfirm state w =
    (Ret (Some NUpdate,
          apply_update channel state
            (<["confirmed" := VBool false]> {["user_feedback" := VStr feedback]})),
     mkWorld (stdin w) (stdout w)
             (<["user_feedback" := VStr feedback]> (<["confirmed" := VBool false]> (memory w)))
             (calls w) (visited w ++ [NConfirm])).
Proof.
  intros Hfb Hno. unfold step, bind, enter. cbn [node_action].
  rewrite (confirm_node_no feedback) by done.
  unfold ret. cbn [next_node].
  rewrite (router_after_update _ _ false) by apply lookup_insert_eq.
  reflexivity.
Qed.

Lemma step_update state w response v :
  let prompt := update_prompt (recall "draft" VNone (memory w))
                              (recall "user_feedback" VNone (memory w)) in
  svc (length (calls w)) prompt = inr response ->
  response_text response = Ret v ->
  step svc channel NUpdate state w =
    (Ret (Some NPresent, apply_update channel state {["draft" := v]}),
     mkWorld (stdin w) (stdout w) (<["draft" := v]> (memory w))
             (calls w ++ [mkCall UpdateCall prompt (inr response)])
             (visited w ++ [NUpdate])).
Proof.
  intros prompt Hsvc Htext. unfold step, bind, enter. cbn [node_action].
  unfold update_workflow, bind, memory_recall, update_workflow_with_gemini.
  cbn [memory calls stdin stdout visited].
  erewrite gemini_call_returns; [reflexivity| exact Hsvc | exact Htext].
Qed.

Lemma step_finalize state w response v :
  let prompt := finalize_prompt (recall "draft" VNone (memory w)) in
  svc (length (calls w)) prompt = inr response ->
  response_text response = Ret v ->
  step svc channel NFinalize state w =
    (Ret (None, apply_update channel state {["final_json" := v]}),
     mkWorld (stdin w) (stdout w) (<["final_json" := v]> (memory w))
             (calls w ++ [mkCall FinalizeCall prompt (inr response)])
             (visited w ++ [NFinalize])).
Proof.
  intros prompt Hsvc Htext. unfold step, bind, enter. cbn [node_action].
  unfold finalize_json, bind, memory_recall, finalize_json_with_gemini.
  cbn [memory calls stdin stdout visited].
  erewrite gemini_call_returns; [reflexivity| exact Hsvc | exact Htext].
Qed.

(** Unfolding [run_from] along the outcome of one step. *)
Lemma run_from_next budget n state w n' state' w' :
  step svc channel n state w = (Ret (Some n', state'), w') ->
  run_from svc channel (S budget) n state w = run_from svc channel budget n' state' w'.
Proof. intros H. cbn [run_from]. unfold bind at 1. by rewrite H. Qed.

Lemma run_from_end budget n state w state' w' :
  step svc channel n state w = (Ret (None, state'), w') ->
  run_from svc channel (S (S budget)) n state w = (Ret state', w').
Proof. intros H. cbn [run_from]. unfold bind at 1. by rewrite H. Qed.

(** The last node ran on the last allowed step: the runtime gives up. *)
Lemma run_from_out_of_steps n state w state' w' :
  step svc channel n state w = (Ret (None, state'), w') ->
  run_from svc channel 1 n state w = (Raise GraphRecursionError, w').
Proof. intros H. cbn [run_from]. unfold bind at 1. by rewrite H. Qed.

Lemma run_from_raise budget n state w e w' :
  step svc channel n state w = (Raise e, w') ->
  run_from svc channel (S budget) n state w = (Raise e, w').
Proof. intros H. cbn [run_from]. unfold bind at 1. by rewrite H. Qed.

End Steps.

(** ** The chat driver *)

Lemma count_calls_app (k : CallKind) (l1 l2 : list Call) :
  count_calls k (l1 ++ l2) = count_calls k l1 + count_calls k l2.
Proof. unfold count_calls. by rewrite filter_app, length_app. Qed.

(** C7. When the first line typed at the requirements prompt is "exit"
    (in any letter case), the driver returns at once: the graph is not
    entered (no node runs), no call to the service is made, memory stays
    empty so no final artifact exists, and only the welcome text and the
    prompt were printed. *)
Theorem exit_at_requirements_prompt {U : UnicodeRepr}
    (svc : Service) (channel : Channel) (limit fuel : nat)
    (user_req : string) (rest : list string) :
  lower user_req = "exit" ->
  exists w',
    run_chat_agent svc channel limit fuel (initial_world (user_req :: rest)) = (Ret tt, w')
    /\ visited w' = []
    /\ calls w' = []
    /\ memory w' = ∅
    /\ memory w' !! "final_json" = None
    /\ stdout w' = [welcome_message; requirements_prompt]
    /\ stdin w' = rest.
Proof.
  intros Hexit. eexists. split.
  - unfold run_chat_agent, bind, print, input, initial_world.
    cbn [stdin stdout memory calls visited]. rewrite Hexit. reflexivity.
  - repeat split.
Qed.

Lemma exit_at_requirements_prompt_witness :
  exists w',
    run_chat_agent (U := plain_unicode) (constant_service "workflow") RootChannel 25 10
      (initial_world ["exit"]) = (Ret tt, w')
    /\ visited w' = []
    /\ calls w' = []
    /\ memory w' = ∅
    /\ memory w' !! "final_json" = None
    /\ stdout w' = [welcome_message; requirements_prompt]
    /\ stdin w' = [].
Proof.
  apply (exit_at_requirements_prompt (U := plain_unicode) (constant_service "workflow") RootChannel 25 10 "exit" []).
  reflexivity.
Defined.

(** C4. Requirements "build a web scraper", then "yes" at the first
    presentation, with a service whose draft call yields some text [d] and
    whose finalize call on [d] yields a non-empty text [j], a step budget
    of at least six (one more than the five nodes, as the runtime needs a
    step to see the end) and at least one loop iteration: the run returns
    normally after the nodes parse, draft, present, confirm, finalize; the
    log holds exactly one draft call, no update call and one finalize call;
    [j] is stored as [final_json] and is the last thing printed. *)
Theorem scenario_immediate_yes {U : UnicodeRepr}
    (svc : Service) (channel : Channel) (limit fuel : nat) (rest : list string)
    (r0 r1 : Response) (d : Value) (j : string) :
  svc 0 (draft_prompt (VDict [("goal", VStr "build a web scraper")])) = inr r0 ->
  response_text r0 = Ret d ->
  svc 1 (finalize_prompt d) = inr r1 ->
  response_text r1 = Ret (VStr j) ->
  j <> "" ->
  6 <= limit ->
  exists w',
    run_chat_agent svc channel limit (S fuel)
      (initial_world ("build a web scraper" :: "yes" :: rest)) = (Ret tt, w')
    /\ visited w' = [NParse; NDraft; NPresent; NConfirm; NFinalize]
    /\ length (calls w') = 2
    /\ count_calls DraftCall (calls w') = 1
    /\ count_calls UpdateCall (calls w') = 0
    /\ count_calls FinalizeCall (calls w') = 1
    /\ memory w' !! "final_json" = Some (VStr j)
    /\ truthy (VStr j) = true
    /\ last (stdout w') = Some j
    /\ stdin w' = rest.
Proof.
  intros Hdraft Hd Hfinal Hj Hne Hlimit.
  do 6 (destruct limit as [|limit]; [lia|]). clear Hlimit.
  assert (Htruthy : truthy (VStr j) = true).
  { cbn [truthy]. destruct (String.eqb_spec j ""); [contradiction | reflexivity]. }
  eexists. split.
  - unfold run_chat_agent, bind at 1, print, bind at 1, input, initial_world.
    cbn [stdin stdout memory calls visited].
    change (lower "build a web scraper" =? "exit")%string with false. cbv iota.
    cbn [chat_loop]. unfold bind at 1, agent_graph_invoke.
    erewrite run_from_next; [|by apply step_parse].
    erewrite run_from_next; [|by eapply step_draft].
    erewrite run_from_next; [|by eapply step_present].
    erewrite run_from_next;
      [|eapply (step_confirm_yes _ _ _ _ "yes");
        [by apply apply_update_lookup, lookup_singleton_eq | reflexivity]].
    erewrite run_from_end;
      [|eapply step_finalize; cbn [memory calls length app];
        [unfold recall; rewrite lookup_insert_ne, lookup_insert_eq by done; exact Hfinal
        | exact Hj]].
    unfold bind at 1, memory_recall. cbn [memory].
    unfold recall at 1. rewrite lookup_insert_eq. rewrite Htruthy.
    unfold bind, print. cbn [stdin stdout memory calls visited str]. reflexivity.
  - cbn [stdin stdout memory calls visited].
    split; [reflexivity|].
    split; [reflexivity|].
    split; [reflexivity|].
    split; [reflexivity|].
    split; [reflexivity|].
    split; [apply lookup_insert_eq|].
    split; [exact Htruthy|].
    split; [by rewrite last_snoc | reflexivity].
Qed.

Lemma scenario_immediate_yes_witness :
  exists w',
    run_chat_agent (U := plain_unicode) (constant_service "workflow") RootChannel 25 1
      (initial_world ["build a web scraper"; "yes"]) = (Ret tt, w')
    /\ visited w' = [NParse; NDraft; NPresent; NConfirm; NFinalize]
    /\ length (calls w') = 2
    /\ count_calls DraftCall (calls w') = 1
    /\ count_calls UpdateCall (calls w') = 0
    /\ count_calls FinalizeCall (calls w') = 1
    /\ memory w' !! "final_json" = Some (VStr "workflow")
    /\ truthy (VStr "workflow") = true
    /\ last (stdout w') = Some "workflow"
    /\ stdin w' = [].
Proof.
  apply (scenario_immediate_yes (U := plain_unicode) (constant_service "workflow") RootChannel 25 0 []
           (text_response "workflow") (text_response "workflow") (VStr "workflow") "workflow").
  - reflexivity.
  - reflexivity.
  - reflexivity.
  - reflexivity.
  - discriminate.
  - lia.
Defined.

(** At a budget of five the same run ends in [GraphRecursionError]: the
    five nodes ran, the artifact is in memory, nothing of it is printed. *)
Example short_budget_gives_up :
  fst (run_chat_agent (U := plain_unicode) (constant_service "workflow") RootChannel 5 1
         (initial_world ["build a web scraper"; "yes"])) = Raise GraphRecursionError
  /\ visited (snd (run_chat_agent (U := plain_unicode) (constant_service "workflow")
                     RootChannel 5 1 (initial_world ["build a web scraper"; "yes"])))
       = [NParse; NDraft; NPresent; NConfirm; NFinalize]
  /\ last (stdout (snd (run_chat_agent (U := plain_unicode) (constant_service "workflow")
                          RootChannel 5 1 (initial_world ["build a web scraper"; "yes"]))))
       = Some confirm_prompt.
Proof. vm_compute. by repeat split. Qed.

(** ** The revision cycle *)

Section Rejection.

Context {U : UnicodeRepr}.
Variable svc : Service.
Variable channel : Channel.

Implicit Types (state : gmap string Value) (w : World).

Lemma response_text_total (response : Response) : response_text response <> OutOfFuel.
Proof.
  unfold response_text, first_text.
  repeat (match goal with |- context [match ?x with _ => _ end] => destruct x end);
    discriminate.
Qed.

Lemma gemini_call_frame kind prompt w o w' :
  gemini_call svc kind prompt w = (o, w') ->
  stdin w' = stdin w /\ stdout w' = stdout w /\ memory w' = memory w
  /\ visited w' = visited w
  /\ calls w' = calls w ++ [mkCall kind prompt (svc (length (calls w)) prompt)]
  /\ o <> OutOfFuel.
Proof.
  unfold gemini_call, bind, models_generate_content.
  destruct (svc (length (calls w)) prompt) as [e|response].
  - intros [= <- <-]. done.
  - intros [= <- <-]. cbn [stdin stdout memory visited calls].
    repeat split. apply response_text_total.
Qed.

Lemma count_calls_snoc_other (k k' : CallKind) (log : list Call) prompt r :
  k' <> k -> count_calls k (log ++ [mkCall k' prompt r]) = count_calls k log.
Proof.
  intros Hne. rewrite count_calls_app. unfold count_calls at 2.
  rewrite filter_cons_False by done. simpl. lia.
Qed.

Lemma step_rejecting (n : Node) state w o w' :
  n <> NFinalize ->
  (n = NConfirm -> rejecting state) ->
  Forall non_confirming (stdin w) ->
  step svc channel n state w = (o, w') ->
  rejecting_step n w o w'.
Proof.
  intros Hn Hstate Hin Hstep. unfold rejecting_step. destruct n; [| | | | |done].
  - (* parse *)
    unfold step, bind, enter in Hstep. cbn [node_action] in Hstep.
    unfold parse_requirements in Hstep.
    destruct (state !! "requirements") as [r|].
    + injection Hstep as <- <-. cbn [stdin memory calls visited].
      unfold remember. rewrite !lookup_insert_ne by done. done.
    + injection Hstep as <- <-. done.
  - (* draft *)
    unfold step, bind at 1 2, enter in Hstep. cbn [node_action] in Hstep.
    unfold draft_workflow, bind at 1, memory_recall, bind at 1,
      generate_draft_with_gemini in Hstep.
    match type of Hstep with context [gemini_call ?s ?k ?p ?w0] =>
      destruct (gemini_call s k p w0) as [o1 w1] eqn:Hcall end.
    apply gemini_call_frame in Hcall as (H1 & H2 & H3 & H4 & H5 & H6).
    cbn [stdin stdout memory calls visited] in *.
    destruct o1 as [v|e|]; [| |done].
    + injection Hstep as <- <-. cbn [stdin memory calls visited]. unfold remember.
      rewrite lookup_insert_ne, H1, H3, H4, H5 by done.
      rewrite count_calls_snoc_other by done. done.
    + injection Hstep as <- <-.
      rewrite H1, H3, H4, H5. rewrite count_calls_snoc_other by done. done.
  - (* present *)
    destruct (stdin w) as [|line rest] eqn:Hlines.
    + rewrite step_present_eof in Hstep by done. injection Hstep as <- <-.
      cbn [stdin memory calls visited]. done.
    + rewrite (step_present _ _ _ _ line rest) in Hstep by done.
      injection Hstep as <- <-. cbn [stdin memory calls visited].
      inversion Hin as [|? ? Hline Hrest]; subst.
      repeat split; try done. intros _. unfold rejecting.
      by rewrite (apply_update_lookup _ _ _ _ (VStr line)) by apply lookup_singleton_eq.
  - (* confirm *)
    specialize (Hstate eq_refl). unfold rejecting in Hstate.
    destruct (state !! "user_feedback") as [[| |feedback|]|] eqn:Hfb.
    1,2,4: unfold step, bind, enter in Hstep; cbn [node_action] in Hstep;
      unfold confirm_node in Hstep; rewrite Hfb in Hstep;
      injection Hstep as <- <-; done.
    + rewrite (step_confirm_no _ _ _ _ feedback) in Hstep by done.
      injection Hstep as <- <-. cbn [stdin memory calls visited].
      rewrite !lookup_insert_ne by done. done.
    + assert (Hupd : step svc channel NConfirm state w =
                (Ret (Some NUpdate,
                      apply_update channel state
                        (<["confirmed" := VBool false]> {["user_feedback" := VStr ""]})),
                 mkWorld (stdin w) (stdout w)
                   (<["user_feedback" := VStr ""]> (<["confirmed" := VBool false]> (memory w)))
                   (calls w) (visited w ++ [NConfirm]))).
      { unfold step, bind, enter. cbn [node_action].
        rewrite confirm_node_absent by done. unfold ret. cbn [next_node].
        rewrite (router_after_update _ _ _ false) by apply lookup_insert_eq.
        reflexivity. }
      rewrite Hupd in Hstep. injection Hstep as <- <-. cbn [stdin memory calls visited].
      rewrite !lookup_insert_ne by done. done.
  - (* update *)
    unfold step, bind at 1 2, enter in Hstep. cbn [node_action] in Hstep.
    unfold update_workflow, bind at 1, memory_recall, bind at 1, bind at 1,
      update_workflow_with_gemini in Hstep.
    match type of Hstep with context [gemini_call ?s ?k ?p ?w0] =>
      destruct (gemini_call s k p w0) as [o1 w1] eqn:Hcall end.
    apply gemini_call_frame in Hcall as (H1 & H2 & H3 & H4 & H5 & H6).
    cbn [stdin stdout memory calls visited] in *.
    destruct o1 as [v|e|]; [| |done].
    + injection Hstep as <- <-. cbn [stdin memory calls visited]. unfold remember.
      rewrite lookup_insert_ne, H1, H3, H4, H5 by done.
      rewrite count_calls_snoc_other by done. done.
    + injection Hstep as <- <-.
      rewrite H1, H3, H4, H5. rewrite count_calls_snoc_other by done. done.
Qed.

Lemma reject_next_not_finalize (n : Node) : n <> NFinalize -> reject_next n <> NFinalize.
Proof. by destruct n. Qed.

Lemma reject_path_no_finalize (len : nat) (n : Node) :
  n <> NFinalize -> NFinalize ∉ reject_path len n.
Proof.
  revert n. induction len as [|len IH]; intros n Hn; cbn [reject_path].
  - apply not_elem_of_nil.
  - apply not_elem_of_cons. split; [done|].
    apply IH. by apply reject_next_not_finalize.
Qed.

(** The graph run from any node but finalize, fed replies none of which
    confirms: it cannot return, and it walks the rejection path. *)
Lemma run_from_rejecting (budget : nat) :
  forall (n : Node) state w o w',
    n <> NFinalize ->
    (n = NConfirm -> rejecting state) ->
    Forall non_confirming (stdin w) ->
    run_from svc channel budget n state w = (o, w') ->
    (exists e, o = Raise e)
    /\ (exists len, len <= budget /\ visited w' = visited w ++ reject_path len n)
    /\ memory w' !! "final_json" = memory w !! "final_json"
    /\ count_calls FinalizeCall (calls w') = count_calls FinalizeCall (calls w).
Proof.
  induction budget as [|budget IH]; intros n state w o w' Hn Hstate Hin Hrun.
  - cbn [run_from] in Hrun. injection Hrun as <- <-.
    split; [by eexists|]. split; [|done].
    exists 0. split; [lia|]. cbn [reject_path]. by rewrite app_nil_r.
  - cbn [run_from] in Hrun. unfold bind at 1 in Hrun.
    destruct (step svc channel n state w) as [o1 w1] eqn:Hstep.
    apply step_rejecting in Hstep as (Hv & Hm & Hc & Hin1 & Ho); [|done..].
    destruct o1 as [[nx state1]|e|]; [| |done].
    + destruct Ho as [-> Hstate1].
      apply IH in Hrun as (Hraise & (len & Hlen & Hpath) & Hm' & Hc');
        [|by apply reject_next_not_finalize|done..].
      split; [done|]. split; [|split; congruence].
      exists (S len). split; [lia|].
      rewrite Hpath, Hv. cbn [reject_path]. by rewrite <- app_assoc.
    + injection Hrun as <- <-. split; [by eexists|]. split; [|done].
      exists 1. split; [lia|]. by rewrite Hv.
Qed.

End Rejection.

Lemma step_confirm_routes {U : UnicodeRepr} (svc : Service) (channel : Channel)
    (state : gmap string Value) (w : World) (feedback : string) :
  state !! "user_feedback" = Some (VStr feedback) ->
  exists state' w',
    step svc channel NConfirm state w =
      (Ret (Some (if confirms feedback then NFinalize else NUpdate), state'), w').
Proof.
  intros Hfb. destruct (confirms feedback) eqn:Hyes.
  - eexists _, _. by apply (step_confirm_yes _ _ _ _ feedback).
  - eexists _, _. by apply (step_confirm_no _ _ _ _ feedback).
Qed.

(** C3. When none of the replies still to be read confirms, an invocation
    of the graph never reaches finalize: whatever the step budget, the
    nodes it runs are an initial stretch of parse, draft, present, confirm,
    update, present, confirm, update, ... (after every confirm comes
    update), the invocation does not return, memory's [final_json] is left
    as it was and no finalize call is made.  A confirm step routes to
    update on a non-confirming reply and to finalize on a confirming one. *)
Theorem no_finalize_without_confirmation {U : UnicodeRepr}
    (svc : Service) (channel : Channel) (limit : nat)
    (state : gmap string Value) (w : World) (o : Outcome (gmap string Value)) (w' : World) :
  Forall non_confirming (stdin w) ->
  agent_graph_invoke svc channel limit state w = (o, w') ->
  (exists e, o = Raise e)
  /\ (exists len, len <= limit
                  /\ visited w' = visited w ++ reject_path len NParse
                  /\ NFinalize ∉ reject_path len NParse)
  /\ memory w' !! "final_json" = memory w !! "final_json"
  /\ count_calls FinalizeCall (calls w') = count_calls FinalizeCall (calls w)
  /\ (forall feedback st w0,
        st !! "user_feedback" = Some (VStr feedback) ->
        exists st' w1,
          step svc channel NConfirm st w0 =
            (Ret (Some (if confirms feedback then NFinalize else NUpdate), st'), w1)).
Proof.
  intros Hin Hrun. unfold agent_graph_invoke in Hrun.
  apply run_from_rejecting in Hrun as (Hraise & (len & Hlen & Hpath) & Hm & Hc);
    [|done..].
  split; [exact Hraise|].
  split; [exists len; split; [exact Hlen|]; split; [exact Hpath|];
          by apply reject_path_no_finalize|].
  split; [exact Hm|]. split; [exact Hc|].
  intros feedback st w0. apply step_confirm_routes.
Qed.

Lemma no_finalize_without_confirmation_witness :
  (exists e, fst rejected_run = Raise e)
  /\ (NFinalize ∉ visited (snd rejected_run))
  /\ memory (snd rejected_run) !! "final_json" = None.
Proof.
  destruct (no_finalize_without_confirmation (U := plain_unicode) (constant_service "workflow") RootChannel 25
              {["requirements" := VStr "build a web scraper"]}
              (initial_world ["add error handling"; "no"; "exit"])
              (fst rejected_run) (snd rejected_run))
    as (Hraise & (len & _ & Hpath & Hnot) & Hm & _).
  - repeat constructor.
  - apply surjective_pairing.
  - split; [exact Hraise|]. split; [|exact Hm].
    rewrite Hpath. exact Hnot.
Defined.

(** ** Failures of the service *)

Section Failures.

Context {U : UnicodeRepr}.
Variable svc : Service.
Variable channel : Channel.
Variable limit : nat.

Lemma quiet_no_failure (log : list Call) (call : Call) (e : Exception) :
  quiet log -> call ∈ log -> call_failure call = Some e -> False.
Proof.
  intros Hq Hin Hfail. unfold quiet in Hq. rewrite Forall_forall in Hq.
  specialize (Hq call Hin). congruence.
Qed.

(** Computations that leave the call log alone. *)
Lemma faithful_silent {A} (c : M A) :
  (forall w o w', c w = (o, w') -> calls w' = calls w) -> faithful c.
Proof.
  intros Hsilent w o w' Hq Hrun call e Hin Hfail. exfalso.
  rewrite (Hsilent _ _ _ Hrun) in Hin. by eapply quiet_no_failure.
Qed.

Lemma faithful_ret {A} (a : A) : faithful (ret a).
Proof. apply faithful_silent. by intros w o w' [= <- <-]. Qed.

Lemma faithful_raise {A} (e : Exception) : faithful (@raise A e).
Proof. apply faithful_silent. by intros w o w' [= <- <-]. Qed.

Lemma faithful_out_of_fuel {A} : faithful (@out_of_fuel A).
Proof. apply faithful_silent. by intros w o w' [= <- <-]. Qed.

Lemma faithful_print (s : string) : faithful (print s).
Proof. apply faithful_silent. by intros w o w' [= <- <-]. Qed.

Lemma faithful_input (s : string) : faithful (input s).
Proof.
  apply faithful_silent. intros w o w'. unfold input.
  destruct (stdin w); by intros [= <- <-].
Qed.

Lemma faithful_memory_remember (k : string) (v : Value) : faithful (memory_remember k v).
Proof. apply faithful_silent. by intros w o w' [= <- <-]. Qed.

Lemma faithful_memory_recall (k : string) : faithful (memory_recall k).
Proof. apply faithful_silent. by intros w o w' [= <- <-]. Qed.

Lemma faithful_enter (n : Node) : faithful (enter n).
Proof. apply faithful_silent. by intros w o w' [= <- <-]. Qed.

Lemma faithful_bind {A B} (c : M A) (k : A -> M B) :
  faithful c -> (forall a, faithful (k a)) -> faithful (bind c k).
Proof.
  intros Hc Hk w o w' Hq Hrun call e Hin Hfail. unfold bind in Hrun.
  destruct (c w) as [[a|e1|] w1] eqn:Hcw.
  - assert (Hq1 : quiet (calls w1)).
    { unfold quiet. rewrite Forall_forall. intros c1 Hc1.
      destruct (call_failure c1) as [e1|] eqn:Hf1; [|done].
      by specialize (Hc _ _ _ Hq Hcw _ _ Hc1 Hf1). }
    by apply (Hk a _ _ _ Hq1 Hrun call e).
  - injection Hrun as <- <-.
    specialize (Hc _ _ _ Hq Hcw _ _ Hin Hfail). congruence.
  - injection Hrun as <- <-. by specialize (Hc _ _ _ Hq Hcw _ _ Hin Hfail).
Qed.

Lemma faithful_gemini_call (kind : CallKind) (prompt : string) :
  faithful (gemini_call svc kind prompt).
Proof.
  intros w o w' Hq Hrun call e Hin Hfail.
  unfold gemini_call, bind, models_generate_content in Hrun.
  destruct (svc (length (calls w)) prompt) as [e1|response] eqn:Hsvc;
    injection Hrun as <- <-; cbn [calls] in Hin;
    apply elem_of_app in Hin as [Hin|Hin];
    try (exfalso; by eapply quiet_no_failure);
    apply list_elem_of_singleton in Hin; subst call;
    unfold call_failure in Hfail; cbn [call_result] in Hfail.
  - congruence.
  - destruct (response_text response); congruence.
Qed.

Create HintDb faithful.
#[local] Hint Resolve faithful_ret faithful_raise faithful_out_of_fuel faithful_print
  faithful_input faithful_memory_remember faithful_memory_recall faithful_enter
  faithful_gemini_call : faithful.

Ltac faithful_steps :=
  repeat first
    [ solve [auto with faithful]
    | apply faithful_bind; [|intros ?] ].

Lemma faithful_node (n : Node) (state : gmap string Value) :
  faithful (node_action svc n state).
Proof.
  destruct n; cbn [node_action].
  - unfold parse_requirements. destruct (state !! "requirements"); faithful_steps.
  - unfold draft_workflow, generate_draft_with_gemini. faithful_steps.
  - unfold present_workflow. faithful_steps.
  - unfold confirm_node.
    destruct (default (VStr "") (state !! "user_feedback")); try faithful_steps.
    destruct (startswith (lower s) "yes"); faithful_steps.
  - unfold update_workflow, update_workflow_with_gemini. faithful_steps.
  - unfold finalize_json, finalize_json_with_gemini. faithful_steps.
Qed.

Lemma faithful_step (n : Node) (state : gmap string Value) :
  faithful (step svc channel n state).
Proof.
  unfold step. apply faithful_bind; [apply faithful_enter|]. intros _.
  apply faithful_bind; [apply faithful_node|]. intros upd. apply faithful_ret.
Qed.

Lemma faithful_run_from (budget : nat) :
  forall (n : Node) (state : gmap string Value),
    faithful (run_from svc channel budget n state).
Proof.
  induction budget as [|budget IH]; intros n state; cbn [run_from].
  - apply faithful_raise.
  - apply faithful_bind; [apply faithful_step|].
    intros [[n'|] state']; [apply IH|].
    destruct budget; [apply faithful_raise | apply faithful_ret].
Qed.

Lemma faithful_chat_loop (fuel : nat) :
  forall state : gmap string Value, faithful (chat_loop svc channel limit fuel state).
Proof.
  induction fuel as [|fuel IH]; intros state; cbn [chat_loop].
  - apply faithful_out_of_fuel.
  - apply faithful_bind; [apply faithful_run_from|]. intros state'.
    apply faithful_bind; [apply faithful_memory_recall|]. intros final_json.
    destruct (truthy final_json); [faithful_steps|].
    destruct (default (VStr "") (state' !! "user_feedback")); try faithful_steps.
    destruct (String.eqb (lower s) "exit"); [faithful_steps | apply IH].
Qed.

Lemma faithful_run_chat_agent (fuel : nat) :
  faithful (run_chat_agent svc channel limit fuel).
Proof.
  unfold run_chat_agent.
  apply faithful_bind; [apply faithful_print|]. intros _.
  apply faithful_bind; [apply faithful_input|]. intros user_req.
  destruct (String.eqb (lower user_req) "exit");
    [apply faithful_ret | apply faithful_chat_loop].
Qed.

End Failures.

(** C5, as the program has it.  Started on a log without failed calls,
    every run of the driver whose log ends up holding a call that failed
    with [e] (raised by the service, or raised while the text was taken
    from a response with a first candidate) itself ends by raising [e]:
    nothing in between catches it.  In the call helper: an exception of
    the service is re-raised as it is; a response with a non-empty
    candidate list yields what the attribute chain on its first candidate
    yields ([AttributeError] on a missing content, [TypeError] on missing
    parts, [IndexError] on an empty part list); a response whose candidates
    are absent, [None] or empty is no failure, the helper returns
    [str(response)]. *)
Theorem service_failure_aborts_run {U : UnicodeRepr}
    (svc : Service) (channel : Channel) (limit fuel : nat)
    (w : World) (o : Outcome unit) (w' : World) :
  quiet (calls w) ->
  run_chat_agent svc channel limit fuel w = (o, w') ->
  (forall call e, call ∈ calls w' -> call_failure call = Some e -> o = Raise e)
  /\ (forall kind prompt w0 e,
        svc (length (calls w0)) prompt = inl e ->
        exists w1, gemini_call svc kind prompt w0 = (Raise e, w1))
  /\ (forall kind prompt w0 response c rest,
        svc (length (calls w0)) prompt = inr response ->
        candidates response = Some (Some (c :: rest)) ->
        exists w1, gemini_call svc kind prompt w0 = (first_text c, w1))
  /\ (forall kind prompt w0 response,
        svc (length (calls w0)) prompt = inr response ->
        candidates response = None \/ candidates response = Some None
          \/ candidates response = Some (Some []) ->
        exists w1, gemini_call svc kind prompt w0 = (Ret (VStr (response_str response)), w1))
  /\ first_text (mkCandidate None) = Raise AttributeError
  /\ first_text (mkCandidate (Some (mkContent None))) = Raise TypeError
  /\ first_text (mkCandidate (Some (mkContent (Some [])))) = Raise IndexError.
Proof.
  intros Hq Hrun.
  split; [exact (faithful_run_chat_agent svc channel limit fuel w o w' Hq Hrun)|].
  split.
  { intros kind prompt w0 e Hsvc. eexists.
    unfold gemini_call, bind, models_generate_content. by rewrite Hsvc. }
  split.
  { intros kind prompt w0 response c rest Hsvc Hc. eexists.
    unfold gemini_call, bind, models_generate_content. rewrite Hsvc.
    unfold response_text. by rewrite Hc. }
  split; [|done].
  intros kind prompt w0 response Hsvc Hc. eexists.
  unfold gemini_call, bind, models_generate_content. rewrite Hsvc.
  unfold response_text. by destruct Hc as [-> | [-> | ->]].
Qed.

Lemma service_failure_aborts_run_witness :
  fst failed_run = Raise (ServiceError "quota exceeded")
  /\ memory (snd failed_run) !! "final_json" = None.
Proof.
  destruct (service_failure_aborts_run (U := plain_unicode) (failing_service "quota exceeded") RootChannel 25 1
              (initial_world ["build a web scraper"; "yes"]) (fst failed_run) (snd failed_run))
    as (Hsurface & _).
  - apply Forall_nil_2.
  - apply surjective_pairing.
  - split; [|reflexivity].
    apply (Hsurface
             (mkCall DraftCall (draft_prompt (U := plain_unicode) (VDict [("goal", VStr "build a web scraper")]))
                     (inl (ServiceError "quota exceeded")))).
    + vm_compute. apply list_elem_of_here.
    + reflexivity.
Defined.

(** C5 as stated does not hold: a response without candidates is
    malformed, yet the call helper raises nothing and hands back
    [str(response)], which the run then uses as draft and as final
    artifact. *)
Lemma malformed_response_gets_fallback :
  well_formed blocked_response = false
  /\ gemini_call blocked_service DraftCall "prompt" (initial_world []) =
       (Ret (VStr "candidates=None"),
        mkWorld [] [] ∅ [mkCall DraftCall "prompt" (inr blocked_response)] [])
  /\ fst (run_chat_agent (U := plain_unicode) blocked_service RootChannel 25 1
            (initial_world ["build a web scraper"; "yes"])) = Ret tt
  /\ ~ (forall (svc : Service) kind prompt w response,
          svc (length (calls w)) prompt = inr response ->
          well_formed response = false ->
          exists e w', gemini_call svc kind prompt w = (Raise e, w')).
Proof.
  split; [reflexivity|]. split; [reflexivity|]. split; [by vm_compute|].
  intros Hclaim.
  destruct (Hclaim blocked_service DraftCall "prompt" (initial_world []) blocked_response
              eq_refl eq_refl) as (e & w' & Hraise).
  discriminate Hraise.
Qed.

(** ** Typing "exit" at the confirmation prompt *)

(** While no reply confirms, the driver loop cannot stop normally. *)
Lemma chat_loop_rejecting {U : UnicodeRepr} (svc : Service) (channel : Channel) (limit fuel : nat)
    (state : gmap string Value) (w : World) (o : Outcome unit) (w' : World) :
  Forall non_confirming (stdin w) ->
  chat_loop svc channel limit (S fuel) state w = (o, w') ->
  (exists e, o = Raise e)
  /\ memory w' !! "final_json" = memory w !! "final_json".
Proof.
  intros Hin Hrun. cbn [chat_loop] in Hrun. unfold bind at 1 in Hrun.
  destruct (agent_graph_invoke svc channel limit state w) as [o1 w1] eqn:Hinvoke.
  unfold agent_graph_invoke in Hinvoke.
  apply run_from_rejecting in Hinvoke as ([e ->] & _ & Hm & _); [|done..].
  injection Hrun as <- <-. split; [by eexists | exact Hm].
Qed.

Lemma exit_is_non_confirming : non_confirming "exit".
Proof. reflexivity. Qed.

Lemma confirming_not_exit (feedback : string) :
  confirms feedback = true -> lower feedback <> "exit".
Proof.
  unfold confirms. intros Hyes Hexit. rewrite Hexit in Hyes. discriminate Hyes.
Qed.

Section ExitCheck.

Context {U : UnicodeRepr}.
Variable svc : Service.
Variable channel : Channel.
Variable limit : nat.

Implicit Types (state : gmap string Value) (w : World).

Lemma exit_free_after_update state (k : string) (v : Value) :
  k <> "user_feedback" ->
  (channel = KeyChannels -> exit_free state) ->
  exit_free (apply_update channel state {[k := v]}).
Proof.
  intros Hk Hstate. unfold exit_free, apply_update. destruct channel.
  - by rewrite lookup_singleton_ne.
  - rewrite lookup_union_r by by apply lookup_singleton_ne.
    by apply Hstate.
Qed.

(** A step that hands over to finalize, or ends the graph, leaves a state
    in which the driver cannot read the exit word. *)
Lemma step_exit_free (n : Node) state w nx state' w' :
  (n = NFinalize -> exit_free state) ->
  step svc channel n state w = (Ret (nx, state'), w') ->
  nx = Some NFinalize \/ nx = None -> exit_free state'.
Proof.
  intros Hstate Hstep Hnx. unfold step, bind at 1 2, enter in Hstep.
  match type of Hstep with context [node_action ?s ?m ?st ?w0] =>
    destruct (node_action s m st w0) as [[upd| |] w1] eqn:Hnode end;
    [|discriminate Hstep..].
  injection Hstep as <- <- <-.
  destruct n; cbn [next_node] in Hnx;
    try (destruct Hnx as [Hnx|Hnx]; discriminate Hnx).
  - (* confirm *)
    cbn [node_action] in Hnode. unfold confirm_node in Hnode.
    destruct (default (VStr "") (state !! "user_feedback")) as [| |feedback|] eqn:Hfb;
      try discriminate Hnode.
    destruct (startswith (lower feedback) "yes") eqn:Hyes.
    + injection Hnode as <- _. apply exit_free_after_update; [done|].
      intros _. unfold exit_free. rewrite Hfb. by apply confirming_not_exit.
    + injection Hnode as <- _. exfalso.
      rewrite (router_after_update _ _ _ false) in Hnx by apply lookup_insert_eq.
      destruct Hnx as [Hnx|Hnx]; discriminate Hnx.
  - (* finalize *)
    cbn [node_action] in Hnode.
    unfold finalize_json, bind at 1, memory_recall, bind at 1 in Hnode.
    match type of Hnode with context [finalize_json_with_gemini ?s ?d ?w0] =>
      destruct (finalize_json_with_gemini s d w0) as [[v| |] w2] end;
      try discriminate Hnode.
    injection Hnode as <- _. apply exit_free_after_update; [done|].
    intros _. by apply Hstate.
Qed.

Lemma run_from_exit_free (budget : nat) :
  forall (n : Node) state w state' w',
    (n = NFinalize -> exit_free state) ->
    run_from svc channel budget n state w = (Ret state', w') ->
    exit_free state'.
Proof.
  induction budget as [|budget IH]; intros n state w state' w' Hstate Hrun;
    cbn [run_from] in Hrun; [discriminate Hrun|].
  unfold bind at 1 in Hrun.
  destruct (step svc channel n state w) as [[[nx state1]| |] w1] eqn:Hstep;
    [|discriminate Hrun..].
  pose proof (step_exit_free _ _ _ _ _ _ Hstate Hstep) as Hfree.
  destruct nx as [n'|].
  - apply IH in Hrun; [done|]. intros ->. apply Hfree. by left.
  - destruct budget; [discriminate Hrun|].
    injection Hrun as <- <-. apply Hfree. by right.
Qed.

(** Whenever the loop of the driver stops normally it has printed a final
    artifact: its exit branch cannot be taken. *)
Lemma chat_loop_returns_with_artifact (fuel : nat) :
  forall state w w',
    chat_loop svc channel limit fuel state w = (Ret tt, w') ->
    truthy (recall "final_json" VNone (memory w')) = true.
Proof.
  induction fuel as [|fuel IH]; intros state w w' Hrun;
    cbn [chat_loop] in Hrun; [discriminate Hrun|].
  unfold bind at 1 in Hrun.
  destruct (agent_graph_invoke svc channel limit state w) as [[state1| |] w1] eqn:Hinvoke;
    [|discriminate Hrun..].
  apply run_from_exit_free in Hinvoke; [|discriminate].
  unfold bind at 1, memory_recall in Hrun.
  destruct (truthy (recall "final_json" VNone (memory w1))) eqn:Hfinal.
  - unfold bind, print in Hrun. injection Hrun as <-. exact Hfinal.
  - unfold exit_free in Hinvoke.
    destruct (default (VStr "") (state1 !! "user_feedback")) as [| |feedback|];
      try discriminate Hrun.
    destruct (String.eqb_spec (lower feedback) "exit"); [contradiction|].
    by apply IH in Hrun.
Qed.

Lemma run_chat_agent_returns_with_artifact (fuel : nat) (user_req : string)
    (replies : list string) (w' : World) :
  lower user_req <> "exit" ->
  run_chat_agent svc channel limit fuel (initial_world (user_req :: replies)) = (Ret tt, w') ->
  truthy (recall "final_json" VNone (memory w')) = true.
Proof.
  intros Hreq Hrun. unfold run_chat_agent, bind at 1, print, bind at 1, input in Hrun.
  cbn [stdin stdout memory calls visited initial_world] in Hrun.
  destruct (String.eqb_spec (lower user_req) "exit"); [contradiction|].
  by apply chat_loop_returns_with_artifact in Hrun.
Qed.

End ExitCheck.

(** C2, on the code.  "exit" read by the confirm step is a change request
    like any other: the step stores it as pending feedback and routes to
    update.  In the run "build a web scraper", "exit" the driver calls the
    service for an update, presents again and fails on the exhausted
    input; with a later "yes" it goes on to produce the final artifact.
    In neither run is the exit message printed. *)
Theorem exit_at_feedback_not_honoured {U : UnicodeRepr} (channel : Channel) (state : gmap string Value) (w : World) :
  (exists st' w',
      step (constant_service "workflow") channel NConfirm
        (<["user_feedback" := VStr "exit"]> state) w = (Ret (Some NUpdate, st'), w')
      /\ memory w' !! "user_feedback" = Some (VStr "exit"))
  /\ fst (exit_run channel ["exit"]) = Raise EOFError
  /\ visited (snd (exit_run channel ["exit"])) =
       [NParse; NDraft; NPresent; NConfirm; NUpdate; NPresent]
  /\ map call_kind (calls (snd (exit_run channel ["exit"]))) = [DraftCall; UpdateCall]
  /\ bool_decide (exit_message ∈ stdout (snd (exit_run channel ["exit"]))) = false
  /\ fst (exit_run channel ["exit"; "yes"]) = Ret tt
  /\ memory (snd (exit_run channel ["exit"; "yes"])) !! "final_json" = Some (VStr "workflow")
  /\ map call_kind (calls (snd (exit_run channel ["exit"; "yes"]))) =
       [DraftCall; UpdateCall; FinalizeCall]
  /\ bool_decide (exit_message ∈ stdout (snd (exit_run channel ["exit"; "yes"]))) = false.
Proof.
  split.
  - eexists _, _. split.
    + apply (step_confirm_no _ _ _ _ "exit"); [apply lookup_insert_eq | reflexivity].
    + cbn [memory]. apply lookup_insert_eq.
  - destruct channel; vm_compute; repeat split.
Qed.

(** ** The loops end with the input *)

Section Termination.

Context {U : UnicodeRepr}.
Variable svc : Service.
Variable channel : Channel.
Variable limit : nat.

Implicit Types (state : gmap string Value) (w : World).

Lemma node_action_stdin (n : Node) state w o w' :
  node_action svc n state w = (o, w') ->
  o <> OutOfFuel
  /\ length (stdin w') <= length (stdin w)
  /\ (n = NPresent -> forall upd, o = Ret upd -> S (length (stdin w')) = length (stdin w)).
Proof.
  destruct n; cbn [node_action].
  - unfold parse_requirements. destruct (state !! "requirements");
      intros [= <- <-]; cbn [stdin]; done.
  - unfold draft_workflow, bind at 1, memory_recall, bind at 1, generate_draft_with_gemini.
    match goal with |- context [gemini_call ?s ?k ?p ?w0] =>
      destruct (gemini_call s k p w0) as [o1 w1] eqn:Hcall end.
    apply gemini_call_frame in Hcall as (H1 & _ & _ & _ & _ & H6).
    destruct o1; intros [= <- <-]; cbn [stdin]; rewrite H1; done.
  - unfold present_workflow, bind, memory_recall, print, input. cbn [stdin].
    destruct (stdin w) as [|line rest]; intros [= <- <-]; cbn [stdin length].
    + repeat split; [done | lia | done].
    + repeat split; [done | lia].
  - unfold confirm_node.
    destruct (default (VStr "") (state !! "user_feedback")); try (intros [= <- <-]; done).
    destruct (startswith (lower s) "yes"); intros [= <- <-]; cbn [stdin]; done.
  - unfold update_workflow, bind at 1, memory_recall, bind at 1, bind at 1,
      update_workflow_with_gemini.
    match goal with |- context [gemini_call ?s ?k ?p ?w0] =>
      destruct (gemini_call s k p w0) as [o1 w1] eqn:Hcall end.
    apply gemini_call_frame in Hcall as (H1 & _ & _ & _ & _ & H6).
    destruct o1; intros [= <- <-]; cbn [stdin]; rewrite H1; done.
  - unfold finalize_json, bind at 1, memory_recall, bind at 1, finalize_json_with_gemini.
    match goal with |- context [gemini_call ?s ?k ?p ?w0] =>
      destruct (gemini_call s k p w0) as [o1 w1] eqn:Hcall end.
    apply gemini_call_frame in Hcall as (H1 & _ & _ & _ & _ & H6).
    destruct o1; intros [= <- <-]; cbn [stdin]; rewrite H1; done.
Qed.

Lemma step_stdin (n : Node) state w o w' :
  step svc channel n state w = (o, w') ->
  o <> OutOfFuel
  /\ length (stdin w') <= length (stdin w)
  /\ (forall nx state', o = Ret (nx, state') ->
        nx = next_node n state'
        /\ (n = NPresent -> S (length (stdin w')) = length (stdin w))).
Proof.
  unfold step, bind at 1 2, enter.
  match goal with |- context [node_action ?s ?m ?st ?w0] =>
    destruct (node_action s m st w0) as [o1 w1] eqn:Hnode end.
  apply node_action_stdin in Hnode as (Hfuel & Hle & Hpresent).
  cbn [stdin] in Hle, Hpresent.
  destruct o1 as [upd| |]; intros [= <- <-]; [|done..].
  split; [done|]. split; [done|].
  intros nx state' [= <- <-]. split; [done|]. intros Hn. by apply (Hpresent Hn upd).
Qed.

(** An invocation that returns has read at least one line, unless it was
    started at confirm or finalize. *)
Lemma run_from_stdin (budget : nat) :
  forall (n : Node) state w o w',
    run_from svc channel budget n state w = (o, w') ->
    o <> OutOfFuel
    /\ length (stdin w') <= length (stdin w)
    /\ (forall state', o = Ret state' -> n <> NConfirm -> n <> NFinalize ->
          length (stdin w') < length (stdin w)).
Proof.
  induction budget as [|budget IH]; intros n state w o w' Hrun; cbn [run_from] in Hrun.
  - injection Hrun as <- <-. done.
  - unfold bind at 1 in Hrun.
    destruct (step svc channel n state w) as [o1 w1] eqn:Hstep.
    apply step_stdin in Hstep as (Hfuel & Hle & Hnext).
    destruct o1 as [[nx state1]| |]; [| |done].
    + destruct (Hnext nx state1 eq_refl) as [Hnx Hpresent].
      destruct nx as [n'|].
      * apply IH in Hrun as (Hfuel' & Hle' & Hlt').
        split; [done|]. split; [lia|].
        intros state' -> Hc Hf.
        destruct n; cbn [next_node] in Hnx; try done; injection Hnx as ->.
        -- assert (length (stdin w') < length (stdin w1)) by by apply (Hlt' state'). lia.
        -- assert (length (stdin w') < length (stdin w1)) by by apply (Hlt' state'). lia.
        -- specialize (Hpresent eq_refl). lia.
        -- assert (length (stdin w') < length (stdin w1)) by by apply (Hlt' state'). lia.
      * destruct budget; injection Hrun as <- <-; (split; [done|]); (split; [done|]).
        -- done.
        -- intros state' _ Hc Hf. destruct n; cbn [next_node] in Hnx; done.
    + injection Hrun as <- <-. done.
Qed.

(** With more iterations allowed than there are lines to read, the loop
    of the driver ends by itself. *)
Lemma chat_loop_total (fuel : nat) :
  forall state w,
    length (stdin w) < fuel ->
    fst (chat_loop svc channel limit fuel state w) <> OutOfFuel.
Proof.
  induction fuel as [|fuel IH]; intros state w Hfuel; [lia|].
  cbn [chat_loop]. unfold bind at 1.
  destruct (agent_graph_invoke svc channel limit state w) as [o1 w1] eqn:Hinvoke.
  apply run_from_stdin in Hinvoke as (Hfuel1 & _ & Hlt).
  destruct o1 as [state1| |]; [|done..].
  specialize (Hlt state1 eq_refl).
  unfold bind at 1, memory_recall.
  destruct (truthy (recall "final_json" VNone (memory w1))); [done|].
  destruct (default (VStr "") (state1 !! "user_feedback")); try done.
  destruct (String.eqb (lower s) "exit"); [done|].
  apply IH. assert (length (stdin w1) < length (stdin w)) by by apply Hlt. lia.
Qed.

Lemma run_chat_agent_total (fuel : nat) (w : World) :
  length (stdin w) <= fuel ->
  fst (run_chat_agent svc channel limit fuel w) <> OutOfFuel.
Proof.
  intros Hfuel. unfold run_chat_agent, bind at 1, print, bind at 1, input.
  cbn [stdin stdout memory calls visited].
  destruct (stdin w) as [|user_req rest]; [done|].
  destruct (String.eqb (lower user_req) "exit"); [done|].
  apply chat_loop_total. cbn [stdin length] in *. lia.
Qed.

End Termination.

(** * Further properties of the program *)

(** ** What a node touches *)

Section Effects.

Context {U : UnicodeRepr}.
Variable svc : Service.
Variable channel : Channel.

Implicit Types (state upd : gmap string Value) (w : World).

Lemma gemini_call_effect kind prompt w o w' :
  gemini_call svc kind prompt w = (o, w') ->
  stdin w' = stdin w /\ stdout w' = stdout w /\ memory w' = memory w
  /\ visited w' = visited w
  /\ (exists c, calls w' = calls w ++ [c] /\ call_kind c = kind)
  /\ o <> OutOfFuel.
Proof.
  intros Hcall. apply gemini_call_frame in Hcall as (H1 & H2 & H3 & H4 & H5 & H6).
  repeat split; try done. by eexists.
Qed.

(** Everything a node does to the world, whatever its outcome. *)
Lemma node_action_effect (n : Node) state w o w' :
  node_action svc n state w = (o, w') ->
  visited w' = visited w
  /\ (exists cs, calls w' = calls w ++ cs /\ map call_kind cs = node_calls n)
  /\ (forall k, k ∉ node_writes n -> memory w' !! k = memory w !! k)
  /\ (n <> NPresent -> stdin w' = stdin w /\ stdout w' = stdout w)
  /\ (forall upd k, o = Ret upd -> k ∉ node_returns n -> upd !! k = None).
Proof.
  destruct n; cbn [node_action node_calls node_writes node_returns].
  - unfold parse_requirements. destruct (state !! "requirements") as [r|];
      intros [= <- <-]; cbn [stdin stdout memory calls visited].
    + split; [done|]. split; [exists []; by rewrite app_nil_r|].
      split.
      { intros k Hk. unfold remember.
        rewrite !lookup_insert_ne; [done|..]; intros <-; apply Hk; set_solver. }
      split; [done|].
      intros upd k [= <-] Hk. apply lookup_singleton_ne. intros <-. set_solver.
    + split; [done|]. split; [exists []; by rewrite app_nil_r|]. done.
  - unfold draft_workflow, bind at 1, memory_recall, bind at 1, generate_draft_with_gemini.
    match goal with |- context [gemini_call ?s ?k ?p ?w0] =>
      destruct (gemini_call s k p w0) as [o1 w1] eqn:Hcall end.
    apply gemini_call_effect in Hcall as (H1 & H2 & H3 & H4 & (c & H5 & Hc) & H6).
    destruct o1 as [v| |]; [| |done]; intros [= <- <-];
      cbn [stdin stdout memory calls visited]; rewrite ?H1, ?H2, ?H3, ?H4.
    + split; [done|]. split; [exists [c]; by rewrite H5, <- Hc|].
      split.
      { intros k Hk. unfold remember. rewrite lookup_insert_ne; [done|].
        intros <-. set_solver. }
      split; [done|].
      intros upd k [= <-] Hk. apply lookup_singleton_ne. intros <-. set_solver.
    + split; [done|]. split; [exists [c]; by rewrite H5, <- Hc|]. done.
  - unfold present_workflow, bind, memory_recall, print, input.
    cbn [stdin stdout memory calls visited].
    destruct (stdin w) as [|line rest]; intros [= <- <-];
      cbn [stdin stdout memory calls visited].
    + split; [done|]. split; [exists []; by rewrite app_nil_r|]. done.
    + split; [done|]. split; [exists []; by rewrite app_nil_r|].
      split; [done|]. split; [done|].
      intros upd k [= <-] Hk. apply lookup_singleton_ne. intros <-. set_solver.
  - unfold confirm_node.
    destruct (default (VStr "") (state !! "user_feedback")) as [| |feedback|];
      try (intros [= <- <-]; split; [done|];
           split; [exists []; by rewrite app_nil_r|]; done).
    destruct (startswith (lower feedback) "yes"); intros [= <- <-];
      cbn [stdin stdout memory calls visited].
    + split; [done|]. split; [exists []; by rewrite app_nil_r|].
      split.
      { intros k Hk. unfold remember. rewrite lookup_insert_ne; [done|].
        intros <-. set_solver. }
      split; [done|].
      intros upd k [= <-] Hk. apply lookup_singleton_ne. intros <-. set_solver.
    + split; [done|]. split; [exists []; by rewrite app_nil_r|].
      split.
      { intros k Hk. unfold remember.
        rewrite !lookup_insert_ne; [done|..]; intros <-; apply Hk; set_solver. }
      split; [done|].
      intros upd k [= <-] Hk.
      rewrite lookup_insert_ne, lookup_singleton_ne; [done|..]; intros <-; set_solver.
  - unfold update_workflow, bind at 1, memory_recall, bind at 1, bind at 1,
      update_workflow_with_gemini.
    match goal with |- context [gemini_call ?s ?k ?p ?w0] =>
      destruct (gemini_call s k p w0) as [o1 w1] eqn:Hcall end.
    apply gemini_call_effect in Hcall as (H1 & H2 & H3 & H4 & (c & H5 & Hc) & H6).
    destruct o1 as [v| |]; [| |done]; intros [= <- <-];
      cbn [stdin stdout memory calls visited]; rewrite ?H1, ?H2, ?H3, ?H4.
    + split; [done|]. split; [exists [c]; by rewrite H5, <- Hc|].
      split.
      { intros k Hk. unfold remember. rewrite lookup_insert_ne; [done|].
        intros <-. set_solver. }
      split; [done|].
      intros upd k [= <-] Hk. apply lookup_singleton_ne. intros <-. set_solver.
    + split; [done|]. split; [exists [c]; by rewrite H5, <- Hc|]. done.
  - unfold finalize_json, bind at 1, memory_recall, bind at 1, finalize_json_with_gemini.
    match goal with |- context [gemini_call ?s ?k ?p ?w0] =>
      destruct (gemini_call s k p w0) as [o1 w1] eqn:Hcall end.
    apply gemini_call_effect in Hcall as (H1 & H2 & H3 & H4 & (c & H5 & Hc) & H6).
    destruct o1 as [v| |]; [| |done]; intros [= <- <-];
      cbn [stdin stdout memory calls visited]; rewrite ?H1, ?H2, ?H3, ?H4.
    + split; [done|]. split; [exists [c]; by rewrite H5, <- Hc|].
      split.
      { intros k Hk. unfold remember. rewrite lookup_insert_ne; [done|].
        intros <-. set_solver. }
      split; [done|].
      intros upd k [= <-] Hk. apply lookup_singleton_ne. intros <-. set_solver.
    + split; [done|]. split; [exists [c]; by rewrite H5, <- Hc|]. done.
Qed.

End Effects.

Section Traces.

Context {U : UnicodeRepr}.
Variable svc : Service.
Variable channel : Channel.
Variable limit : nat.

Implicit Types (state upd : gmap string Value) (w : World).

Lemma step_effect (n : Node) state w o w' :
  step svc channel n state w = (o, w') ->
  visited w' = visited w ++ [n]
  /\ (exists cs, calls w' = calls w ++ cs /\ map call_kind cs = node_calls n)
  /\ (forall k, k ∉ node_writes n -> memory w' !! k = memory w !! k)
  /\ (n <> NPresent -> stdin w' = stdin w /\ stdout w' = stdout w)
  /\ (forall nx state', o = Ret (nx, state') ->
        nx = next_node n state'
        /\ exists upd, state' = apply_update channel state upd
                       /\ forall k, k ∉ node_returns n -> upd !! k = None).
Proof.
  unfold step, bind at 1 2, enter.
  match goal with |- context [node_action ?s ?m ?st ?w0] =>
    destruct (node_action s m st w0) as [o1 w1] eqn:Hnode end.
  apply node_action_effect in Hnode as (Hv & Hc & Hm & Hio & Hupd).
  cbn [stdin stdout memory calls visited] in *.
  destruct o1 as [upd| |]; intros [= <- <-]; (split; [done|]); (split; [done|]);
    (split; [done|]); (split; [done|]); [|done..].
  intros nx state' [= <- <-]. split; [done|].
  exists upd. split; [done|]. intros k Hk. by apply (Hupd upd k).
Qed.

Lemma tracked_silent {A} (c : M A) :
  (forall w o w', c w = (o, w') -> visited w' = visited w /\ calls w' = calls w) ->
  tracked c.
Proof.
  intros Hsilent w o w' Hrun. destruct (Hsilent _ _ _ Hrun) as [Hv Hc].
  exists [], []. by rewrite !app_nil_r.
Qed.

Lemma tracked_bind {A B} (c : M A) (k : A -> M B) :
  tracked c -> (forall a, tracked (k a)) -> tracked (bind c k).
Proof.
  intros Hc Hk w o w' Hrun. unfold bind in Hrun.
  destruct (c w) as [[a|e|] w1] eqn:Hcw.
  - destruct (Hc _ _ _ Hcw) as (tr1 & cs1 & Hv1 & Hc1 & Hk1).
    destruct (Hk a _ _ _ Hrun) as (tr2 & cs2 & Hv2 & Hc2 & Hk2).
    exists (tr1 ++ tr2), (cs1 ++ cs2).
    rewrite Hv2, Hv1, Hc2, Hc1, !app_assoc, map_app, flat_map_app, Hk1, Hk2. done.
  - injection Hrun as <- <-. by apply (Hc _ _ _ Hcw).
  - injection Hrun as <- <-. by apply (Hc _ _ _ Hcw).
Qed.

Lemma tracked_step (n : Node) state : tracked (step svc channel n state).
Proof.
  intros w o w' Hstep.
  apply step_effect in Hstep as (Hv & (cs & Hc & Hk) & _).
  exists [n], cs. cbn [flat_map]. by rewrite app_nil_r.
Qed.

Lemma tracked_run_from (budget : nat) :
  forall (n : Node) state, tracked (run_from svc channel budget n state).
Proof.
  induction budget as [|budget IH]; intros n state; cbn [run_from].
  - apply tracked_silent. by intros w o w' [= <- <-].
  - apply tracked_bind; [apply tracked_step|].
    intros [[n'|] state']; [apply IH|].
    destruct budget; apply tracked_silent; by intros w o w' [= <- <-].
Qed.

Lemma tracked_print (s : string) : tracked (print s).
Proof. apply tracked_silent. by intros w o w' [= <- <-]. Qed.

Lemma tracked_chat_loop (fuel : nat) :
  forall state, tracked (chat_loop svc channel limit fuel state).
Proof.
  induction fuel as [|fuel IH]; intros state; cbn [chat_loop].
  - apply tracked_silent. by intros w o w' [= <- <-].
  - apply tracked_bind; [apply tracked_run_from|]. intros state'.
    apply tracked_bind; [apply tracked_silent; by intros w o w' [= <- <-]|].
    intros final_json.
    destruct (truthy final_json).
    { apply tracked_bind; [apply tracked_print|]. intros _. apply tracked_print. }
    destruct (default (VStr "") (state' !! "user_feedback"));
      try (apply tracked_silent; by intros w o w' [= <- <-]).
    destruct (String.eqb (lower s) "exit"); [apply tracked_print | apply IH].
Qed.

Lemma tracked_run_chat_agent (fuel : nat) :
  tracked (run_chat_agent svc channel limit fuel).
Proof.
  unfold run_chat_agent.
  apply tracked_bind; [apply tracked_print|]. intros _.
  apply tracked_bind.
  { apply tracked_silent. intros w o w'. unfold input.
    destruct (stdin w); by intros [= <- <-]. }
  intros user_req.
  destruct (String.eqb (lower user_req) "exit"); [|apply tracked_chat_loop].
  apply tracked_silent. by intros w o w' [= <- <-].
Qed.

End Traces.

(** X1. In every run of the driver, whatever its outcome, the calls made
    to the service are exactly those of the nodes that ran, in the same
    order: one draft call per draft node, one update call per update node,
    one finalize call per finalize node, and none by parse, present and
    confirm. *)
Theorem calls_follow_nodes {U : UnicodeRepr}
    (svc : Service) (channel : Channel) (limit fuel : nat) (lines : list string) :
  map call_kind (calls (snd (run_chat_agent svc channel limit fuel (initial_world lines))))
  = flat_map node_calls
      (visited (snd (run_chat_agent svc channel limit fuel (initial_world lines)))).
Proof.
  destruct (run_chat_agent svc channel limit fuel (initial_world lines)) as [o w'] eqn:Hrun.
  apply tracked_run_chat_agent in Hrun as (tr & cs & Hv & Hc & Hk).
  cbn [snd]. rewrite Hv, Hc. exact Hk.
Qed.

(** X2. A step of the graph changes memory only at the keys of its node:
    parse at [requirements] and [parsed], draft and update at [draft],
    confirm at [confirmed] and [user_feedback], finalize at [final_json],
    present at none; only present reads the console or prints; and the
    dictionary a node returns has no keys but its own. *)
Theorem step_frame {U : UnicodeRepr}
    (svc : Service) (channel : Channel) (n : Node)
    (state : gmap string Value) (w : World)
    (o : Outcome (option Node * gmap string Value)) (w' : World) :
  step svc channel n state w = (o, w') ->
  (forall k, k ∉ node_writes n -> memory w' !! k = memory w !! k)
  /\ (n <> NPresent -> stdin w' = stdin w /\ stdout w' = stdout w)
  /\ (forall nx state', o = Ret (nx, state') ->
        exists upd, state' = apply_update channel state upd
                    /\ forall k, k ∉ node_returns n -> upd !! k = None).
Proof.
  intros Hstep. apply step_effect in Hstep as (_ & _ & Hm & Hio & Hret).
  split; [exact Hm|]. split; [exact Hio|].
  intros nx state' Ho. by destruct (Hret nx state' Ho) as [_ Hupd].
Qed.

(** ** The shape of an invocation that returns *)

Section Completed.

Context {U : UnicodeRepr}.
Variable svc : Service.
Variable channel : Channel.

Implicit Types (state : gmap string Value) (w : World).

Lemma run_from_present_returns (budget : nat) :
  forall state w state' w',
    run_from svc channel budget NPresent state w = (Ret state', w') ->
    exists rejected yes,
      stdin w = rejected ++ yes :: stdin w'
      /\ Forall non_confirming rejected
      /\ confirms yes = true
      /\ visited w' = visited w ++ accept_path (length rejected)
      /\ 3 * length rejected + 3 <= budget.
Proof.
  induction budget as [budget IH] using lt_wf_ind. intros state w state' w' Hrun.
  destruct budget as [|b1]; [discriminate Hrun|].
  cbn [run_from] in Hrun. unfold bind at 1 in Hrun.
  destruct (stdin w) as [|line rest0] eqn:Hlines.
  { rewrite step_present_eof in Hrun by done. discriminate Hrun. }
  rewrite (step_present _ _ _ _ line rest0) in Hrun by done.
  destruct b1 as [|b2]; [discriminate Hrun|].
  assert (Hfb : apply_update channel state {["user_feedback" := VStr line]}
                  !! "user_feedback" = Some (VStr line))
    by by apply apply_update_lookup, lookup_singleton_eq.
  destruct (confirms line) eqn:Hline.
  - erewrite run_from_next in Hrun; [|by apply (step_confirm_yes _ _ _ _ line)].
    destruct b2 as [|b3]; [discriminate Hrun|].
    cbn [run_from] in Hrun. unfold bind at 1 in Hrun.
    match type of Hrun with context [step ?s ?c NFinalize ?st ?w0] =>
      destruct (step s c NFinalize st w0) as [o3 w3] eqn:Hstep end.
    apply step_effect in Hstep as (Hv & _ & _ & Hio & Hret).
    destruct (Hio ltac:(done)) as [Hin _].
    cbn [stdin visited] in Hv, Hin.
    destruct o3 as [[nx state3]| |]; [|discriminate Hrun..].
    destruct (Hret nx state3 eq_refl) as [-> _]. cbn [next_node] in Hrun.
    destruct b3 as [|b4]; [discriminate Hrun|].
    injection Hrun as <- <-.
    exists [], line. cbn [length accept_path app].
    split; [by rewrite Hin|]. split; [constructor|]. split; [done|].
    split; [|lia]. rewrite Hv, <- !app_assoc. done.
  - erewrite run_from_next in Hrun; [|by apply (step_confirm_no _ _ _ _ line)].
    destruct b2 as [|b3]; [discriminate Hrun|].
    cbn [run_from] in Hrun. unfold bind at 1 in Hrun.
    match type of Hrun with context [step ?s ?c NUpdate ?st ?w0] =>
      destruct (step s c NUpdate st w0) as [o3 w3] eqn:Hstep end.
    apply step_effect in Hstep as (Hv & _ & _ & Hio & Hret).
    destruct (Hio ltac:(done)) as [Hin _].
    cbn [stdin visited] in Hv, Hin.
    destruct o3 as [[nx state3]| |]; [|discriminate Hrun..].
    destruct (Hret nx state3 eq_refl) as [-> _]. cbn [next_node] in Hrun.
    apply IH in Hrun as (rejected & yes & Hsplit & Hrej & Hyes & Hpath & Hb); [|lia].
    exists (line :: rejected), yes. cbn [length accept_path app].
    split; [by rewrite <- Hsplit, Hin|].
    split; [by constructor|]. split; [done|].
    split; [|lia]. rewrite Hpath, Hv, <- !app_assoc. done.
Qed.

Lemma accept_path_calls (r : nat) :
  flat_map node_calls (NParse :: NDraft :: accept_path r)
  = DraftCall :: replicate r UpdateCall ++ [FinalizeCall].
Proof.
  cbn [flat_map node_calls app]. f_equal.
  induction r as [|r IH]; [done|]. cbn [accept_path flat_map node_calls app replicate].
  by rewrite IH.
Qed.

Lemma run_from_parse_returns (budget : nat) state w state' w' :
  run_from svc channel budget NParse state w = (Ret state', w') ->
  exists rejected yes,
    stdin w = rejected ++ yes :: stdin w'
    /\ Forall non_confirming rejected
    /\ confirms yes = true
    /\ visited w' = visited w ++ NParse :: NDraft :: accept_path (length rejected)
    /\ 3 * length rejected + 5 <= budget.
Proof.
  intros Hrun.
  destruct budget as [|b1]; [discriminate Hrun|].
  cbn [run_from] in Hrun. unfold bind at 1 in Hrun.
  destruct (step svc channel NParse state w) as [o1 w1] eqn:Hstep1.
  apply step_effect in Hstep1 as (Hv1 & _ & _ & Hio1 & Hret1).
  destruct (Hio1 ltac:(done)) as [Hin1 _].
  destruct o1 as [[nx state1]| |]; [|discriminate Hrun..].
  destruct (Hret1 nx state1 eq_refl) as [-> _]. cbn [next_node] in Hrun.
  destruct b1 as [|b2]; [discriminate Hrun|].
  cbn [run_from] in Hrun. unfold bind at 1 in Hrun.
  destruct (step svc channel NDraft state1 w1) as [o2 w2] eqn:Hstep2.
  apply step_effect in Hstep2 as (Hv2 & _ & _ & Hio2 & Hret2).
  destruct (Hio2 ltac:(done)) as [Hin2 _].
  destruct o2 as [[nx state2]| |]; [|discriminate Hrun..].
  destruct (Hret2 nx state2 eq_refl) as [-> _]. cbn [next_node] in Hrun.
  apply run_from_present_returns in Hrun
    as (rejected & yes & Hsplit & Hrej & Hyes & Hpath & Hb).
  exists rejected, yes.
  split; [by rewrite <- Hin1, <- Hin2|]. split; [done|]. split; [done|].
  split; [|lia]. rewrite Hpath, Hv2, Hv1, <- !app_assoc. done.
Qed.

End Completed.

Lemma count_calls_kinds (k : CallKind) (cs : list Call) :
  count_calls k cs = length (filter (fun k' => k' = k) (map call_kind cs)).
Proof.
  unfold count_calls. induction cs as [|c cs IH]; [done|].
  cbn [map]. rewrite !filter_cons. destruct (decide (call_kind c = k)); cbn [length]; lia.
Qed.

Lemma count_replicate_same (k : CallKind) (r : nat) :
  length (filter (fun k' => k' = k) (replicate r k)) = r.
Proof.
  induction r as [|r IH]; [done|]. cbn [replicate].
  rewrite filter_cons_True by done. cbn [length]. lia.
Qed.

Lemma count_replicate_other (k k0 : CallKind) (r : nat) :
  k0 <> k -> length (filter (fun k' => k' = k) (replicate r k0)) = 0.
Proof.
  intros Hne. induction r as [|r IH]; [done|]. cbn [replicate].
  by rewrite filter_cons_False.
Qed.

(** X3. Every invocation of the graph that returns consumed the replies
    up to and including the first confirming one: the lines read are some
    non-confirming replies followed by one confirming reply, the nodes run
    are parse, draft, one round present, confirm, update per rejected reply
    and finally present, confirm, finalize, and the service was called
    once for the draft, once per rejected reply for an update and once to
    finalize.  The step budget was at least three per rejected reply plus
    five. *)
Theorem completed_invocation_shape {U : UnicodeRepr}
    (svc : Service) (channel : Channel) (limit : nat)
    (state : gmap string Value) (w : World) (state' : gmap string Value) (w' : World) :
  agent_graph_invoke svc channel limit state w = (Ret state', w') ->
  exists rejected yes cs,
    stdin w = rejected ++ yes :: stdin w'
    /\ Forall non_confirming rejected
    /\ confirms yes = true
    /\ visited w' = visited w ++ NParse :: NDraft :: accept_path (length rejected)
    /\ calls w' = calls w ++ cs
    /\ map call_kind cs = DraftCall :: replicate (length rejected) UpdateCall ++ [FinalizeCall]
    /\ count_calls DraftCall cs = 1
    /\ count_calls UpdateCall cs = length rejected
    /\ count_calls FinalizeCall cs = 1
    /\ 3 * length rejected + 5 <= limit.
Proof.
  intros Hrun. unfold agent_graph_invoke in Hrun.
  pose proof (tracked_run_from svc channel limit NParse state w _ w' Hrun)
    as (tr & cs & Hv & Hc & Hk).
  apply run_from_parse_returns in Hrun
    as (rejected & yes & Hsplit & Hrej & Hyes & Hpath & Hb).
  rewrite Hpath in Hv. apply app_inv_head in Hv. subst tr.
  rewrite accept_path_calls in Hk.
  exists rejected, yes, cs.
  do 6 (split; [done|]).
  rewrite !count_calls_kinds, Hk.
  split; [|split; [|split; [|done]]].
  - rewrite filter_cons_True by done. cbn [length]. rewrite filter_app, length_app.
    rewrite count_replicate_other by done. by rewrite filter_cons_False.
  - rewrite filter_cons_False by done. rewrite filter_app, length_app.
    rewrite count_replicate_same. rewrite filter_cons_False by done. cbn. lia.
  - rewrite filter_cons_False by done. rewrite filter_app, length_app.
    rewrite count_replicate_other by done. by rewrite filter_cons_True.
Qed.

(** ** Runs with a service that answers *)

Section Answering.

Context {U : UnicodeRepr}.
Variable svc : Service.
Variable channel : Channel.
Hypothesis svc_answers : answers svc.

Implicit Types (state : gmap string Value) (w : World).

Lemma run_from_present_accepts (rejected : list string) :
  forall budget state w yes rest,
    stdin w = rejected ++ yes :: rest ->
    Forall non_confirming rejected ->
    confirms yes = true ->
    3 * length rejected + 4 <= budget ->
    exists state' w' v,
      run_from svc channel budget NPresent state w = (Ret state', w')
      /\ stdin w' = rest
      /\ visited w' = visited w ++ accept_path (length rejected)
      /\ memory w' !! "final_json" = Some v
      /\ state' !! "final_json" = Some v
      /\ memory w' !! "confirmed" = Some (VBool true)
      /\ (forall k, k ∉ ["draft"; "confirmed"; "user_feedback"; "final_json"] ->
            memory w' !! k = memory w !! k).
Proof.
  induction rejected as [|line rejected IH];
    intros budget state w yes rest Hlines Hrej Hyes Hbudget; cbn [length app] in *.
  - do 4 (destruct budget as [|budget]; [lia|]).
    erewrite run_from_next; [|by apply (step_present _ _ _ _ yes rest)].
    erewrite run_from_next;
      [|apply (step_confirm_yes _ _ _ _ yes);
        [by apply apply_update_lookup, lookup_singleton_eq | exact Hyes]].
    match goal with |- context [run_from _ _ _ NFinalize ?st ?w0] =>
      destruct (svc_answers (length (calls w0))
                  (finalize_prompt (recall "draft" VNone (memory w0))))
        as (response & v & Hsvc & Htext) end.
    erewrite run_from_end; [|by eapply step_finalize].
    eexists _, _, v. split; [reflexivity|]. cbn [stdin visited memory accept_path].
    split; [done|]. split; [by rewrite <- !app_assoc|].
    split; [apply lookup_insert_eq|].
    split; [by apply apply_update_lookup, lookup_singleton_eq|].
    split; [by rewrite lookup_insert_ne, lookup_insert_eq|].
    intros k Hk. rewrite !lookup_insert_ne; [done|..]; intros <-; apply Hk; set_solver.
  - inversion Hrej as [|? ? Hline Hrej']; subst.
    do 3 (destruct budget as [|budget]; [lia|]).
    erewrite run_from_next;
      [|by apply (step_present _ _ _ _ line (rejected ++ yes :: rest))].
    erewrite run_from_next;
      [|apply (step_confirm_no _ _ _ _ line);
        [by apply apply_update_lookup, lookup_singleton_eq | exact Hline]].
    match goal with |- context [run_from _ _ _ NUpdate ?st ?w0] =>
      destruct (svc_answers (length (calls w0))
                  (update_prompt (recall "draft" VNone (memory w0))
                                 (recall "user_feedback" VNone (memory w0))))
        as (response & v & Hsvc & Htext) end.
    erewrite run_from_next; [|by eapply step_update].
    match goal with |- context [run_from _ _ _ NPresent ?st ?w0] =>
      destruct (IH budget st w0 yes rest) as (state' & w' & v' & Hrun & Hin & Hv & Hm)
    end; [done | done | done | lia |].
    exists state', w', v'. split; [exact Hrun|]. split; [exact Hin|].
    cbn [visited memory] in Hv, Hm.
    split; [rewrite Hv; cbn [accept_path]; by rewrite <- !app_assoc|].
    destruct Hm as (Hfinal & Hstate & Hconfirmed & Hframe).
    do 3 (split; [done|]).
    intros k Hk. rewrite Hframe by done.
    rewrite !lookup_insert_ne; [done|..]; intros <-; apply Hk; set_solver.
Qed.

Lemma run_from_present_abandoned (rejected : list string) :
  forall budget state w,
    stdin w = rejected ->
    Forall non_confirming rejected ->
    3 * length rejected + 1 <= budget ->
    exists w',
      run_from svc channel budget NPresent state w = (Raise EOFError, w')
      /\ visited w' = visited w ++ abandoned_path (length rejected)
      /\ memory w' !! "final_json" = memory w !! "final_json"
      /\ stdin w' = [].
Proof.
  induction rejected as [|line rejected IH];
    intros budget state w Hlines Hrej Hbudget; cbn [length] in *.
  - destruct budget as [|budget]; [lia|].
    erewrite run_from_raise; [|by apply step_present_eof].
    eexists. split; [reflexivity|]. done.
  - inversion Hrej as [|? ? Hline Hrej']; subst.
    do 3 (destruct budget as [|budget]; [lia|]).
    erewrite run_from_next; [|by apply (step_present _ _ _ _ line rejected)].
    erewrite run_from_next;
      [|apply (step_confirm_no _ _ _ _ line);
        [by apply apply_update_lookup, lookup_singleton_eq | exact Hline]].
    match goal with |- context [run_from _ _ _ NUpdate ?st ?w0] =>
      destruct (svc_answers (length (calls w0))
                  (update_prompt (recall "draft" VNone (memory w0))
                                 (recall "user_feedback" VNone (memory w0))))
        as (response & v & Hsvc & Htext) end.
    erewrite run_from_next; [|by eapply step_update].
    match goal with |- context [run_from _ _ _ NPresent ?st ?w0] =>
      destruct (IH budget st w0) as (w' & Hrun & Hv & Hm & Hin)
    end; [done | done | lia |].
    exists w'. split; [exact Hrun|]. cbn [visited memory] in Hv, Hm.
    split; [rewrite Hv; cbn [abandoned_path]; by rewrite <- !app_assoc|].
    split; [|exact Hin]. rewrite Hm. by rewrite !lookup_insert_ne by done.
Qed.

Lemma run_from_parse_draft budget state w (r : Value) :
  state !! "requirements" = Some r ->
  exists state2 w2,
    run_from svc channel (S (S budget)) NParse state w
      = run_from svc channel budget NPresent state2 w2
    /\ stdin w2 = stdin w
    /\ visited w2 = visited w ++ [NParse; NDraft]
    /\ memory w2 !! "requirements" = Some r
    /\ memory w2 !! "parsed" = Some (VDict [("goal", r)])
    /\ memory w2 !! "final_json" = memory w !! "final_json".
Proof.
  intros Hreq.
  erewrite run_from_next; [|by apply step_parse].
  match goal with |- context [run_from _ _ _ NDraft ?st ?w0] =>
    destruct (svc_answers (length (calls w0))
                (draft_prompt (recall "parsed" VNone (memory w0))))
      as (response & v & Hsvc & Htext) end.
  erewrite run_from_next; [|by eapply step_draft].
  eexists _, _. split; [reflexivity|]. cbn [stdin visited memory].
  split; [done|]. split; [by rewrite <- app_assoc|].
  split; [by rewrite !lookup_insert_ne, lookup_insert_eq by done|].
  split; [by rewrite lookup_insert_ne, lookup_insert_eq by done|].
  by rewrite !lookup_insert_ne by done.
Qed.

End Answering.

(** X4. With a service that answers every call, requirements in the
    state, and a step budget of three per rejected reply plus six (one
    more than the nodes to run): when
    the replies to come are some non-confirming ones followed by a
    confirming one, the invocation returns after reading exactly those
    replies; the artifact is stored as [final_json] in memory and carried by
    the returned state, memory's [confirmed] is true and the stored
    requirements are those of the state. *)
Theorem invocation_completes {U : UnicodeRepr}
    (svc : Service) (channel : Channel) (limit : nat)
    (state : gmap string Value) (w : World)
    (r : Value) (rejected : list string) (yes : string) (rest : list string) :
  answers svc ->
  state !! "requirements" = Some r ->
  stdin w = rejected ++ yes :: rest ->
  Forall non_confirming rejected ->
  confirms yes = true ->
  3 * length rejected + 6 <= limit ->
  exists state' w' v,
    agent_graph_invoke svc channel limit state w = (Ret state', w')
    /\ stdin w' = rest
    /\ visited w' = visited w ++ NParse :: NDraft :: accept_path (length rejected)
    /\ memory w' !! "final_json" = Some v
    /\ state' !! "final_json" = Some v
    /\ memory w' !! "confirmed" = Some (VBool true)
    /\ memory w' !! "requirements" = Some r
    /\ memory w' !! "parsed" = Some (VDict [("goal", r)]).
Proof.
  intros Hsvc Hreq Hlines Hrej Hyes Hlimit. unfold agent_graph_invoke.
  do 2 (destruct limit as [|limit]; [lia|]).
  destruct (run_from_parse_draft svc channel Hsvc limit state w r Hreq)
    as (state2 & w2 & -> & Hin2 & Hv2 & Hreq2 & Hparsed2 & _).
  destruct (run_from_present_accepts svc channel Hsvc rejected limit state2 w2 yes rest)
    as (state' & w' & v & Hrun & Hin & Hv & Hfinal & Hstate & Hconfirmed & Hframe);
    [congruence | done | done | lia |].
  exists state', w', v. split; [exact Hrun|]. split; [exact Hin|].
  split; [rewrite Hv, Hv2; by rewrite <- app_assoc|].
  do 3 (split; [done|]).
  split; (rewrite Hframe; [done|]);
    repeat (apply not_elem_of_cons; split; [done|]); apply not_elem_of_nil.
Qed.

(** X5. With a service that answers every call, requirements that are
    not the exit word, a step budget of at least three per reply plus three
    and at least one loop iteration: when the input ends after the
    requirements and some non-confirming replies, the run of the driver
    ends in [EOFError] raised at the next presentation, after parse, draft
    and one round present, confirm, update per reply; no final artifact
    is stored. *)
Theorem input_ends_without_confirmation {U : UnicodeRepr}
    (svc : Service) (channel : Channel) (limit fuel : nat)
    (user_req : string) (rejected : list string) :
  answers svc ->
  lower user_req <> "exit" ->
  Forall non_confirming rejected ->
  3 * length rejected + 3 <= limit ->
  exists w',
    run_chat_agent svc channel limit (S fuel) (initial_world (user_req :: rejected))
      = (Raise EOFError, w')
    /\ visited w' = NParse :: NDraft :: abandoned_path (length rejected)
    /\ memory w' !! "final_json" = None
    /\ stdin w' = [].
Proof.
  intros Hsvc Hreq Hrej Hlimit.
  unfold run_chat_agent, bind at 1, print, bind at 1, input.
  cbn [stdin stdout memory calls visited initial_world].
  destruct (String.eqb_spec (lower user_req) "exit"); [contradiction|].
  cbn [chat_loop]. unfold bind at 1, agent_graph_invoke.
  do 2 (destruct limit as [|limit]; [lia|]).
  match goal with |- context [run_from _ _ _ NParse ?st ?w0] =>
    destruct (run_from_parse_draft svc channel Hsvc limit st w0 (VStr user_req))
      as (state2 & w2 & -> & Hin2 & Hv2 & _ & _ & Hfinal2)
  end; [apply lookup_singleton_eq|].
  cbn [stdin visited memory] in Hin2, Hv2, Hfinal2.
  destruct (run_from_present_abandoned svc channel Hsvc rejected limit state2 w2)
    as (w' & -> & Hv & Hfinal & Hin); [done | done | lia |].
  exists w'. split; [reflexivity|].
  split; [by rewrite Hv, Hv2|]. split; [by rewrite Hfinal, Hfinal2|].
  exact Hin.
Qed.

(** ** One revision, end to end *)


(** ** The requirements stay what was typed *)

Section Requirements.

Context {U : UnicodeRepr}.
Variable svc : Service.
Variable channel : Channel.
Variable limit : nat.
Variable req : string.

Implicit Types (state : gmap string Value) (w : World).

Lemma step_requirements (n : Node) state w o w' :
  requirements_in_state req state ->
  requirements_kept req (memory w) ->
  step svc channel n state w = (o, w') ->
  requirements_kept req (memory w')
  /\ (forall nx state', o = Ret (nx, state') -> requirements_in_state req state').
Proof.
  intros Hstate Hmem Hstep. split.
  - destruct (decide (n = NParse)) as [->|Hn].
    + destruct Hstate as [Hnone|Hsome].
      * unfold step, bind, enter in Hstep. cbn [node_action] in Hstep.
        unfold parse_requirements in Hstep. rewrite Hnone in Hstep.
        by injection Hstep as <- <-.
      * rewrite (step_parse _ _ _ _ (VStr req)) in Hstep by done.
        injection Hstep as <- <-. right. cbn [memory].
        by rewrite lookup_insert_eq, lookup_insert_ne, lookup_insert_eq.
    + apply step_effect in Hstep as (_ & _ & Hframe & _).
      assert (Hkeys : ("requirements" ∉ node_writes n) /\ ("parsed" ∉ node_writes n)).
      { destruct n; try done; cbn [node_writes]; split;
          repeat (apply not_elem_of_cons; split; [done|]); apply not_elem_of_nil. }
      destruct Hkeys as [H1 H2]. unfold requirements_kept.
      by rewrite (Hframe _ H1), (Hframe _ H2).
  - intros nx state' ->.
    apply step_effect in Hstep as (_ & _ & _ & _ & Hret).
    destruct (Hret nx state' eq_refl) as (_ & upd & -> & Hupd).
    assert (Hnone : upd !! "requirements" = None).
    { apply Hupd. destruct n; cbn [node_returns];
        repeat (apply not_elem_of_cons; split; [done|]); apply not_elem_of_nil. }
    unfold requirements_in_state, apply_update. destruct channel; [by left|].
    by rewrite lookup_union_r.
Qed.

Lemma run_from_requirements (budget : nat) :
  forall (n : Node) state w o w',
    requirements_in_state req state ->
    requirements_kept req (memory w) ->
    run_from svc channel budget n state w = (o, w') ->
    requirements_kept req (memory w')
    /\ (forall state', o = Ret state' -> requirements_in_state req state').
Proof.
  induction budget as [|budget IH]; intros n state w o w' Hstate Hmem Hrun;
    cbn [run_from] in Hrun.
  - by injection Hrun as <- <-.
  - unfold bind at 1 in Hrun.
    destruct (step svc channel n state w) as [o1 w1] eqn:Hstep.
    apply step_requirements in Hstep as [Hmem1 Hstate1]; [|done..].
    destruct o1 as [[[n'|] state1]| |].
    + apply IH in Hrun; [done | by apply (Hstate1 (Some n')) | done].
    + destruct budget; injection Hrun as <- <-; (split; [done|]).
      * done.
      * intros state' [= <-]. by apply (Hstate1 None).
    + by injection Hrun as <- <-.
    + by injection Hrun as <- <-.
Qed.

Lemma chat_loop_requirements (fuel : nat) :
  forall state w o w',
    requirements_in_state req state ->
    requirements_kept req (memory w) ->
    chat_loop svc channel limit fuel state w = (o, w') ->
    requirements_kept req (memory w').
Proof.
  induction fuel as [|fuel IH]; intros state w o w' Hstate Hmem Hrun;
    cbn [chat_loop] in Hrun.
  - by injection Hrun as <- <-.
  - unfold bind at 1 in Hrun.
    destruct (agent_graph_invoke svc channel limit state w) as [o1 w1] eqn:Hinvoke.
    apply run_from_requirements in Hinvoke as [Hmem1 Hstate1]; [|done..].
    destruct o1 as [state1| |]; [|by injection Hrun as <- <-..].
    unfold bind at 1, memory_recall in Hrun.
    destruct (truthy (recall "final_json" VNone (memory w1))).
    { unfold bind, print in Hrun. by injection Hrun as <- <-. }
    destruct (default (VStr "") (state1 !! "user_feedback"));
      try by injection Hrun as <- <-.
    destruct (String.eqb (lower s) "exit").
    + unfold print in Hrun. by injection Hrun as <- <-.
    + apply IH in Hrun; [done | by apply Hstate1 | done].
Qed.

End Requirements.

(** X7. Throughout a run of the driver, whatever the replies, the service
    and the outcome: memory either holds nothing under [requirements] and
    [parsed], or holds the first line typed under [requirements] and the
    mapping [{goal: that line}] under [parsed]; later replies and service
    answers never change them. *)
Theorem requirements_stay_as_typed {U : UnicodeRepr}
    (svc : Service) (channel : Channel) (limit fuel : nat)
    (user_req : string) (replies : list string) :
  requirements_kept user_req
    (memory (snd (run_chat_agent svc channel limit fuel
                    (initial_world (user_req :: replies))))).
Proof.
  unfold run_chat_agent, bind at 1, print, bind at 1, input.
  cbn [stdin stdout memory calls visited initial_world].
  destruct (String.eqb (lower user_req) "exit"); [by left|].
  match goal with |- context [chat_loop ?s ?c ?l ?f ?st ?w0] =>
    destruct (chat_loop s c l f st w0) as [o w'] eqn:Hrun end.
  cbn [snd]. eapply chat_loop_requirements; [| |exact Hrun].
  - right. apply lookup_singleton_eq.
  - by left.
Qed.

(** ** How the driver stops *)

Section Stops.

Context {U : UnicodeRepr}.
Variable svc : Service.
Variable channel : Channel.
Variable limit : nat.

Implicit Types (state : gmap string Value) (w : World).

Lemma chat_loop_stop (fuel : nat) :
  forall state w w',
    chat_loop svc channel limit fuel state w = (Ret tt, w') ->
    truthy (recall "final_json" VNone (memory w')) = true
    /\ exists out,
         stdout w' = out ++ [final_header; str (recall "final_json" VNone (memory w'))].
Proof.
  induction fuel as [|fuel IH]; intros state w w' Hrun;
    cbn [chat_loop] in Hrun; [discriminate Hrun|].
  unfold bind at 1 in Hrun.
  destruct (agent_graph_invoke svc channel limit state w) as [[state1| |] w1] eqn:Hinvoke;
    [|discriminate Hrun..].
  apply run_from_exit_free in Hinvoke; [|discriminate].
  unfold bind at 1, memory_recall in Hrun.
  destruct (truthy (recall "final_json" VNone (memory w1))) eqn:Hfinal.
  - unfold bind, print in Hrun. injection Hrun as <-.
    cbn [memory stdout]. split; [exact Hfinal|].
    exists (stdout w1). by rewrite <- app_assoc.
  - unfold exit_free in Hinvoke.
    destruct (default (VStr "") (state1 !! "user_feedback")) as [| |feedback|];
      try discriminate Hrun.
    destruct (String.eqb_spec (lower feedback) "exit"); [contradiction|].
    by apply IH in Hrun.
Qed.

End Stops.

(** X8. The driver returns normally in two ways only: at once, because
    the first line typed is the exit word, with no node run; or after a
    finalize whose artifact is truthy, the artifact header and the artifact
    being the last two things printed.  The branch that prints the exit
    message is never the way out. *)
Theorem normal_stop_has_artifact {U : UnicodeRepr}
    (svc : Service) (channel : Channel) (limit fuel : nat)
    (lines : list string) (w' : World) :
  run_chat_agent svc channel limit fuel (initial_world lines) = (Ret tt, w') ->
  (exists user_req rest,
      lines = user_req :: rest /\ lower user_req = "exit"
      /\ visited w' = [] /\ memory w' = ∅)
  \/ (truthy (recall "final_json" VNone (memory w')) = true
      /\ exists out,
           stdout w' = out ++ [final_header; str (recall "final_json" VNone (memory w'))]).
Proof.
  intros Hrun. unfold run_chat_agent, bind at 1, print, bind at 1, input in Hrun.
  cbn [stdin stdout memory calls visited initial_world] in Hrun.
  destruct lines as [|user_req rest]; [discriminate Hrun|].
  destruct (String.eqb_spec (lower user_req) "exit") as [Hexit|Hgo].
  - left. injection Hrun as <-. by exists user_req, rest.
  - right. by apply chat_loop_stop in Hrun.
Qed.

Lemma lower_ascii_x (c : ascii) : lower_ascii c = "x"%char <-> c = "x"%char \/ c = "X"%char.
Proof.
  split.
  - destruct c as [[] [] [] [] [] [] [] []]; vm_compute; intros H;
      first [discriminate H | by left | by right].
  - intros [-> | ->]; reflexivity.
Qed.

Lemma lower_ascii_i (c : ascii) : lower_ascii c = "i"%char <-> c = "i"%char \/ c = "I"%char.
Proof.
  split.
  - destruct c as [[] [] [] [] [] [] [] []]; vm_compute; intros H;
      first [discriminate H | by left | by right].
  - intros [-> | ->]; reflexivity.
Qed.

Lemma lower_ascii_t (c : ascii) : lower_ascii c = "t"%char <-> c = "t"%char \/ c = "T"%char.
Proof.
  split.
  - destruct c as [[] [] [] [] [] [] [] []]; vm_compute; intros H;
      first [discriminate H | by left | by right].
  - intros [-> | ->]; reflexivity.
Qed.

Lemma exit_word_spec (s : string) :
  lower s = "exit" <->
  exists c1 c2 c3 c4,
    s = String c1 (String c2 (String c3 (String c4 EmptyString)))
    /\ (c1 = "e"%char \/ c1 = "E"%char)
    /\ (c2 = "x"%char \/ c2 = "X"%char)
    /\ (c3 = "i"%char \/ c3 = "I"%char)
    /\ (c4 = "t"%char \/ c4 = "T"%char).
Proof.
  split.
  - destruct s as [|c1 [|c2 [|c3 [|c4 [|c5 rest]]]]]; cbn [lower]; try discriminate.
    intros [= H1 H2 H3 H4]. exists c1, c2, c3, c4. split; [reflexivity|].
    by rewrite <- lower_ascii_e, <- lower_ascii_x, <- lower_ascii_i, <- lower_ascii_t.
  - intros (c1 & c2 & c3 & c4 & -> & H1 & H2 & H3 & H4).
    apply lower_ascii_e in H1. apply lower_ascii_x in H2.
    apply lower_ascii_i in H3. apply lower_ascii_t in H4.
    cbn [lower]. by rewrite H1, H2, H3, H4.
Qed.

(** X9. The confirm step hands over to finalize exactly when the reply
    begins with the letters y, e, s, each in either case, whatever follows;
    any other reply, among them the empty one, a bare "y" and a reply with
    a leading blank, is routed to update. *)
Theorem confirm_accepts_exactly {U : UnicodeRepr}
    (svc : Service) (channel : Channel)
    (state : gmap string Value) (w : World) (feedback : string) :
  state !! "user_feedback" = Some (VStr feedback) ->
  ((exists state' w',
       step svc channel NConfirm state w = (Ret (Some NFinalize, state'), w'))
   <-> exists c1 c2 c3 rest,
         feedback = String c1 (String c2 (String c3 rest))
         /\ (c1 = "y"%char \/ c1 = "Y"%char)
         /\ (c2 = "e"%char \/ c2 = "E"%char)
         /\ (c3 = "s"%char \/ c3 = "S"%char))
  /\ ((exists state' w',
         step svc channel NConfirm state w = (Ret (Some NUpdate, state'), w'))
      <-> confirms feedback = false)
  /\ confirms "" = false /\ confirms "y" = false /\ confirms " yes" = false
  /\ confirms "YES!" = true /\ confirms "yesterday" = true.
Proof.
  intros Hfb.
  destruct (step_confirm_routes svc channel state w feedback Hfb) as (st & w1 & Hstep).
  split; [|split; [|by repeat split]].
  - rewrite <- confirming_spec. fold (confirms feedback). split.
    + intros (state' & w' & Hfin). rewrite Hfin in Hstep.
      by destruct (confirms feedback).
    + intros Hyes. rewrite Hyes in Hstep. by eexists _, _.
  - split.
    + intros (state' & w' & Hupd). rewrite Hupd in Hstep.
      by destruct (confirms feedback).
    + intros Hno. rewrite Hno in Hstep. by eexists _, _.
Qed.

(** ** Memory only grows *)

Section Growth.

Context {U : UnicodeRepr}.
Variable svc : Service.
Variable channel : Channel.

Implicit Types (state : gmap string Value) (w : World).

Lemma growing_same {A} (c : M A) :
  (forall w o w', c w = (o, w') -> memory w' = memory w) -> growing c.
Proof. intros Hsame w o w' Hrun. by rewrite (Hsame _ _ _ Hrun). Qed.

Lemma growing_bind {A B} (c : M A) (k : A -> M B) :
  growing c -> (forall a, growing (k a)) -> growing (bind c k).
Proof.
  intros Hc Hk w o w' Hrun. unfold bind in Hrun.
  destruct (c w) as [[a|e|] w1] eqn:Hcw.
  - etrans; [by eapply Hc | by eapply Hk].
  - injection Hrun as <- <-. by eapply Hc.
  - injection Hrun as <- <-. by eapply Hc.
Qed.

Lemma growing_ret {A} (a : A) : growing (ret a).
Proof. apply growing_same. by intros w o w' [= <- <-]. Qed.

Lemma growing_raise {A} (e : Exception) : growing (@raise A e).
Proof. apply growing_same. by intros w o w' [= <- <-]. Qed.

Lemma growing_out_of_fuel {A} : growing (@out_of_fuel A).
Proof. apply growing_same. by intros w o w' [= <- <-]. Qed.

Lemma growing_print (s : string) : growing (print s).
Proof. apply growing_same. by intros w o w' [= <- <-]. Qed.

Lemma growing_input (s : string) : growing (input s).
Proof.
  apply growing_same. intros w o w'. unfold input.
  destruct (stdin w); by intros [= <- <-].
Qed.

Lemma growing_memory_recall (k : string) : growing (memory_recall k).
Proof. apply growing_same. by intros w o w' [= <- <-]. Qed.

Lemma growing_enter (n : Node) : growing (enter n).
Proof. apply growing_same. by intros w o w' [= <- <-]. Qed.

Lemma growing_memory_remember (k : string) (v : Value) : growing (memory_remember k v).
Proof.
  intros w o w' [= <- <-]. cbn [memory]. unfold remember.
  rewrite dom_insert_L. set_solver.
Qed.

Lemma growing_gemini_call (kind : CallKind) (prompt : string) :
  growing (gemini_call svc kind prompt).
Proof.
  apply growing_same. intros w o w' Hcall.
  by apply gemini_call_frame in Hcall as (_ & _ & Hm & _).
Qed.

Create HintDb growing.
#[local] Hint Resolve growing_ret growing_raise growing_out_of_fuel growing_print
  growing_input growing_memory_recall growing_enter growing_memory_remember
  growing_gemini_call : growing.

Ltac growing_steps :=
  repeat first
    [ solve [auto with growing]
    | apply growing_bind; [|intros ?] ].

Lemma growing_node (n : Node) state : growing (node_action svc n state).
Proof.
  destruct n; cbn [node_action].
  - unfold parse_requirements. destruct (state !! "requirements"); growing_steps.
  - unfold draft_workflow, generate_draft_with_gemini. growing_steps.
  - unfold present_workflow. growing_steps.
  - unfold confirm_node.
    destruct (default (VStr "") (state !! "user_feedback")); try growing_steps.
    destruct (startswith (lower s) "yes"); growing_steps.
  - unfold update_workflow, update_workflow_with_gemini. growing_steps.
  - unfold finalize_json, finalize_json_with_gemini. growing_steps.
Qed.

Lemma growing_step (n : Node) state : growing (step svc channel n state).
Proof.
  unfold step. apply growing_bind; [apply growing_enter|]. intros _.
  apply growing_bind; [apply growing_node|]. intros upd. apply growing_ret.
Qed.

Lemma growing_run_from (budget : nat) :
  forall (n : Node) state, growing (run_from svc channel budget n state).
Proof.
  induction budget as [|budget IH]; intros n state; cbn [run_from].
  - apply growing_raise.
  - apply growing_bind; [apply growing_step|].
    intros [[n'|] state']; [apply IH|].
    destruct budget; [apply growing_raise | apply growing_ret].
Qed.

Variable limit : nat.

Lemma growing_chat_loop (fuel : nat) :
  forall state, growing (chat_loop svc channel limit fuel state).
Proof.
  induction fuel as [|fuel IH]; intros state; cbn [chat_loop].
  - apply growing_out_of_fuel.
  - apply growing_bind; [apply growing_run_from|]. intros state'.
    apply growing_bind; [apply growing_memory_recall|]. intros final_json.
    destruct (truthy final_json); [growing_steps|].
    destruct (default (VStr "") (state' !! "user_feedback")); try growing_steps.
    destruct (String.eqb (lower s) "exit"); [growing_steps | apply IH].
Qed.

Lemma growing_run_chat_agent (fuel : nat) :
  growing (run_chat_agent svc channel limit fuel).
Proof.
  unfold run_chat_agent.
  apply growing_bind; [apply growing_print|]. intros _.
  apply growing_bind; [apply growing_input|]. intros user_req.
  destruct (String.eqb (lower user_req) "exit");
    [apply growing_ret | apply growing_chat_loop].
Qed.

(** The first node of a run with budget left is entered, and what follows
    only adds to the trace. *)
Lemma run_from_head (budget : nat) (n : Node) state w o w' :
  run_from svc channel (S budget) n state w = (o, w') ->
  exists tr, visited w' = visited w ++ n :: tr.
Proof.
  intros Hrun. cbn [run_from] in Hrun. unfold bind at 1 in Hrun.
  destruct (step svc channel n state w) as [o1 w1] eqn:Hstep.
  apply step_effect in Hstep as (Hv & _).
  destruct o1 as [[[n'|] state1]| |].
  - apply tracked_run_from in Hrun as (tr & _ & Hv' & _).
    exists tr. by rewrite Hv', Hv, <- app_assoc.
  - destruct budget; injection Hrun as <- <-; by exists [].
  - injection Hrun as <- <-. by exists [].
  - injection Hrun as <- <-. by exists [].
Qed.

Lemma chat_loop_head (fuel : nat) state w o w' :
  0 < limit ->
  chat_loop svc channel limit (S fuel) state w = (o, w') ->
  exists tr, visited w' = visited w ++ NParse :: tr.
Proof.
  intros Hlimit Hrun. destruct limit as [|l] eqn:Hl; [lia|].
  cbn [chat_loop] in Hrun. unfold bind at 1 in Hrun.
  destruct (agent_graph_invoke svc channel (S l) state w) as [o1 w1] eqn:Hinvoke.
  apply run_from_head in Hinvoke as (tr1 & Hv1).
  destruct o1 as [state1| |]; [|injection Hrun as <- <-; by exists tr1..].
  unfold bind at 1, memory_recall in Hrun.
  destruct (truthy (recall "final_json" VNone (memory w1))).
  { unfold bind, print in Hrun. injection Hrun as <- <-. by exists tr1. }
  destruct (default (VStr "") (state1 !! "user_feedback"));
    try (injection Hrun as <- <-; by exists tr1).
  destruct (String.eqb (lower s) "exit").
  - unfold print in Hrun. injection Hrun as <- <-. by exists tr1.
  - rewrite <- Hl in Hrun. apply tracked_chat_loop in Hrun as (tr2 & _ & Hv2 & _).
    exists (tr1 ++ tr2). by rewrite Hv2, Hv1, <- app_assoc.
Qed.

End Growth.

(** X10. During a run of the driver no key is removed from memory: every
    key that holds a value at some point of the run still holds one at its
    end.  Seen from the start of the run: the keys present at the start are
    present at the end. *)
Theorem memory_keys_stay {U : UnicodeRepr}
    (svc : Service) (channel : Channel) (limit fuel : nat)
    (w : World) (o : Outcome unit) (w' : World) (key : string) :
  run_chat_agent svc channel limit fuel w = (o, w') ->
  is_Some (memory w !! key) ->
  is_Some (memory w' !! key).
Proof.
  intros Hrun Hkey. apply growing_run_chat_agent in Hrun.
  apply elem_of_dom. apply Hrun. by apply elem_of_dom.
Qed.

(** X11. The first line typed stops the driver exactly when it is the
    word exit, four letters in any case and nothing else.  Any other line,
    for instance the word with a blank before or after it, is taken as
    requirements: with a step and an iteration to spend, parse is the first
    node run and the line is stored under [requirements]. *)
Theorem requirements_unless_exit_word {U : UnicodeRepr}
    (svc : Service) (channel : Channel) (limit fuel : nat)
    (user_req : string) (rest : list string) :
  (lower user_req = "exit" <->
   exists c1 c2 c3 c4,
     user_req = String c1 (String c2 (String c3 (String c4 EmptyString)))
     /\ (c1 = "e"%char \/ c1 = "E"%char)
     /\ (c2 = "x"%char \/ c2 = "X"%char)
     /\ (c3 = "i"%char \/ c3 = "I"%char)
     /\ (c4 = "t"%char \/ c4 = "T"%char))
  /\ (lower user_req <> "exit" ->
      exists o w' tr,
        run_chat_agent svc channel (S limit) (S fuel) (initial_world (user_req :: rest))
          = (o, w')
        /\ visited w' = NParse :: tr
        /\ memory w' !! "requirements" = Some (VStr user_req)
        /\ memory w' !! "parsed" = Some (VDict [("goal", VStr user_req)]))
  /\ lower " exit" <> "exit" /\ lower "exit " <> "exit" /\ lower "quit" <> "exit".
Proof.
  split; [apply exit_word_spec|]. split; [|by repeat split].
  intros Hgo.
  destruct (run_chat_agent svc channel (S limit) (S fuel) (initial_world (user_req :: rest)))
    as [o w'] eqn:Hrun.
  unfold run_chat_agent, bind at 1, print, bind at 1, input in Hrun.
  cbn [stdin stdout memory calls visited initial_world] in Hrun.
  destruct (String.eqb_spec (lower user_req) "exit"); [contradiction|].
  assert (Hkept : requirements_kept user_req (memory w')).
  { eapply chat_loop_requirements; [| |exact Hrun].
    - right. apply lookup_singleton_eq.
    - by left. }
  pose proof Hrun as Hhead.
  apply chat_loop_head in Hhead as (tr & Hv); [|lia]. cbn [visited app] in Hv.
  exists o, w', tr. split; [reflexivity|]. split; [exact Hv|].
  assert (Hstored : is_Some (memory w' !! "requirements")).
  { cbn [chat_loop] in Hrun. unfold bind at 1, agent_graph_invoke in Hrun.
    erewrite run_from_next in Hrun; [|by apply step_parse, lookup_singleton_eq].
    match type of Hrun with context [run_from ?s ?c ?b ?n ?st ?w0] =>
      destruct (run_from s c b n st w0) as [o1 w1] eqn:Hrest end.
    apply growing_run_from in Hrest. cbn [memory] in Hrest.
    assert (Hin1 : "requirements" ∈ dom (memory w1)).
    { apply Hrest. rewrite !dom_insert_L. set_solver. }
    assert (Hrest2 : dom (memory w1) ⊆ dom (memory w')).
    { destruct o1 as [state1| |]; [|by injection Hrun as <- <-..].
      unfold bind at 1, memory_recall in Hrun.
      destruct (truthy (recall "final_json" VNone (memory w1))).
      { unfold bind, print in Hrun. by injection Hrun as <- <-. }
      destruct (default (VStr "") (state1 !! "user_feedback"));
        try by injection Hrun as <- <-.
      destruct (String.eqb (lower s) "exit").
      - unfold print in Hrun. by injection Hrun as <- <-.
      - by apply growing_chat_loop in Hrun. }
    apply elem_of_dom. by apply Hrest2. }
  destruct Hkept as [[Hnone _]|[Hreq Hparsed]]; [|done].
  rewrite Hnone in Hstored. by destruct Hstored.
Qed.

(** ** Failing and empty answers *)

Lemma gemini_call_fails (svc : Service) (kind : CallKind) (prompt : string)
    (w : World) (e : Exception) :
  call_failure (mkCall kind prompt (svc (length (calls w)) prompt)) = Some e ->
  gemini_call svc kind prompt w =
    (Raise e, mkWorld (stdin w) (stdout w) (memory w)
                      (calls w ++ [mkCall kind prompt (svc (length (calls w)) prompt)])
                      (visited w)).
Proof.
  unfold call_failure, gemini_call, bind, models_generate_content. cbn [call_result].
  destruct (svc (length (calls w)) prompt) as [e1|response].
  - by intros [= ->].
  - destruct (response_text response); [discriminate | by intros [= ->] | discriminate].
Qed.

Lemma step_parse_missing {U : UnicodeRepr} (svc : Service) (channel : Channel)
    (state : gmap string Value) (w : World) :
  state !! "requirements" = None ->
  step svc channel NParse state w =
    (Raise (KeyError "requirements"),
     mkWorld (stdin w) (stdout w) (memory w) (calls w) (visited w ++ [NParse])).
Proof.
  intros Hnone. unfold step, bind, enter. cbn [node_action].
  unfold parse_requirements. by rewrite Hnone.
Qed.

(** X12. When the first call to the service fails whatever the prompt, by
    an exception of the service or while the text is taken from its
    response, then for requirements that are not the exit word, a step
    budget of at least two and at least one loop iteration the run ends
    with that exception before anything is presented: only the welcome
    text and the requirements prompt were printed, no reply was read, the
    requirements are in memory but no draft is, and that call is the only
    one made. *)
Theorem draft_failure_before_presentation {U : UnicodeRepr}
    (svc : Service) (channel : Channel) (limit fuel : nat)
    (user_req : string) (rest : list string) (e : Exception) :
  lower user_req <> "exit" ->
  (forall prompt, call_failure (mkCall DraftCall prompt (svc 0 prompt)) = Some e) ->
  2 <= limit ->
  exists w',
    run_chat_agent svc channel limit (S fuel) (initial_world (user_req :: rest))
      = (Raise e, w')
    /\ stdout w' = [welcome_message; requirements_prompt]
    /\ stdin w' = rest
    /\ visited w' = [NParse; NDraft]
    /\ length (calls w') = 1
    /\ memory w' !! "requirements" = Some (VStr user_req)
    /\ memory w' !! "draft" = None
    /\ memory w' !! "final_json" = None.
Proof.
  intros Hgo Hfail Hlimit.
  do 2 (destruct limit as [|limit]; [lia|]). clear Hlimit.
  eexists. split.
  - unfold run_chat_agent, bind at 1, print, bind at 1, input, initial_world.
    cbn [stdin stdout memory calls visited].
    destruct (String.eqb_spec (lower user_req) "exit"); [contradiction|].
    cbn [chat_loop]. unfold bind at 1, agent_graph_invoke.
    erewrite run_from_next; [|by apply step_parse, lookup_singleton_eq].
    erewrite run_from_raise; [reflexivity|].
    unfold step, bind at 1 2, enter. cbn [node_action].
    unfold draft_workflow, bind at 1, memory_recall, bind at 1, generate_draft_with_gemini.
    cbn [stdin stdout memory calls visited].
    unfold recall. rewrite lookup_insert_eq.
    rewrite (gemini_call_fails svc DraftCall _ _ e) by apply Hfail. reflexivity.
  - cbn [stdin stdout memory calls visited length app].
    do 4 (split; [reflexivity|]).
    split; [by rewrite lookup_insert_ne, lookup_insert_eq by done|].
    split; by rewrite !lookup_insert_ne by done.
Qed.

Section Restart.

Context {U : UnicodeRepr}.
Variable svc : Service.
Variable channel : Channel.

Implicit Types (state : gmap string Value) (w : World).

Lemma text_feedback_after_update state (k : string) (v : Value) :
  k <> "user_feedback" ->
  (channel = KeyChannels -> text_feedback state) ->
  text_feedback (apply_update channel state {[k := v]}).
Proof.
  intros Hk Hstate. unfold text_feedback, apply_update. destruct channel.
  - rewrite lookup_singleton_ne by done. by exists "".
  - rewrite lookup_union_r by by apply lookup_singleton_ne.
    by apply Hstate.
Qed.

Lemma step_text_feedback (n : Node) state w nx state' w' :
  (n = NFinalize -> text_feedback state) ->
  step svc channel n state w = (Ret (nx, state'), w') ->
  nx = Some NFinalize \/ nx = None -> text_feedback state'.
Proof.
  intros Hstate Hstep Hnx. unfold step, bind at 1 2, enter in Hstep.
  match type of Hstep with context [node_action ?s ?m ?st ?w0] =>
    destruct (node_action s m st w0) as [[upd| |] w1] eqn:Hnode end;
    [|discriminate Hstep..].
  injection Hstep as <- <- <-.
  destruct n; cbn [next_node] in Hnx;
    try (destruct Hnx as [Hnx|Hnx]; discriminate Hnx).
  - cbn [node_action] in Hnode. unfold confirm_node in Hnode.
    destruct (default (VStr "") (state !! "user_feedback")) as [| |feedback|] eqn:Hfb;
      try discriminate Hnode.
    destruct (startswith (lower feedback) "yes") eqn:Hyes.
    + injection Hnode as <- _. apply text_feedback_after_update; [done|].
      intros _. unfold text_feedback. rewrite Hfb. exists feedback.
      split; [done|]. by apply confirming_not_exit.
    + injection Hnode as <- _. exfalso.
      rewrite (router_after_update _ _ _ false) in Hnx by apply lookup_insert_eq.
      destruct Hnx as [Hnx|Hnx]; discriminate Hnx.
  - cbn [node_action] in Hnode.
    unfold finalize_json, bind at 1, memory_recall, bind at 1 in Hnode.
    match type of Hnode with context [finalize_json_with_gemini ?s ?d ?w0] =>
      destruct (finalize_json_with_gemini s d w0) as [[v| |] w2] end;
      try discriminate Hnode.
    injection Hnode as <- _. apply text_feedback_after_update; [done|].
    intros _. by apply Hstate.
Qed.

(** The state an invocation returns: its [user_feedback], read as the
    driver reads it, is a text other than the exit word, and under the
    root channel it has no [requirements]. *)
Lemma run_from_returned_state (budget : nat) :
  forall (n : Node) state w state' w',
    (n = NFinalize -> text_feedback state) ->
    run_from svc channel budget n state w = (Ret state', w') ->
    text_feedback state'
    /\ (channel = RootChannel -> state' !! "requirements" = None).
Proof.
  induction budget as [|budget IH]; intros n state w state' w' Hstate Hrun;
    cbn [run_from] in Hrun; [discriminate Hrun|].
  unfold bind at 1 in Hrun.
  destruct (step svc channel n state w) as [[[nx state1]| |] w1] eqn:Hstep;
    [|discriminate Hrun..].
  pose proof (step_text_feedback _ _ _ _ _ _ Hstate Hstep) as Htext.
  destruct nx as [n'|].
  - apply IH in Hrun; [done|]. intros ->. apply Htext. by left.
  - destruct budget; [discriminate Hrun|]. injection Hrun as <- <-.
    split; [apply Htext; by right|]. intros Hroot.
    apply step_effect in Hstep as (_ & _ & _ & _ & Hret).
    destruct (Hret None state1 eq_refl) as (_ & upd & -> & Hupd).
    rewrite Hroot. cbn [apply_update]. apply Hupd.
    destruct n; cbn [node_returns];
      repeat (apply not_elem_of_cons; split; [done|]); apply not_elem_of_nil.
Qed.

End Restart.

(** X13. When an invocation of the graph returns and the [final_json] it
    leaves in memory is empty or [None], the loop of the driver prints
    nothing and goes round again with the returned state, so parse is
    entered a second time.  With the state kept in one root channel that
    second parse finds no requirements in the state and the run ends in
    [KeyError], with nothing more read, printed, stored or called. *)
Theorem empty_artifact_restarts {U : UnicodeRepr}
    (svc : Service) (channel : Channel) (limit fuel : nat)
    (state : gmap string Value) (w : World)
    (state1 : gmap string Value) (w1 : World) :
  agent_graph_invoke svc channel limit state w = (Ret state1, w1) ->
  truthy (recall "final_json" VNone (memory w1)) = false ->
  chat_loop svc channel limit (S (S fuel)) state w
    = chat_loop svc channel limit (S fuel) state1 w1
  /\ (exists o w' tr,
        chat_loop svc channel limit (S fuel) state1 w1 = (o, w')
        /\ visited w' = visited w1 ++ NParse :: tr)
  /\ (channel = RootChannel ->
      chat_loop svc channel limit (S fuel) state1 w1
        = (Raise (KeyError "requirements"),
           mkWorld (stdin w1) (stdout w1) (memory w1) (calls w1) (visited w1 ++ [NParse]))).
Proof.
  intros Hinvoke Hfalsy.
  assert (Hlimit : 0 < limit).
  { destruct limit; [discriminate Hinvoke | lia]. }
  pose proof Hinvoke as Hstate. unfold agent_graph_invoke in Hstate.
  apply run_from_returned_state in Hstate as [(feedback & Hfb & Hgo) Hroot];
    [|discriminate].
  split; [|split].
  - change (chat_loop svc channel limit (S (S fuel)) state w)
      with (bind (agent_graph_invoke svc channel limit state)
              (fun state0 =>
                 let* final_json := memory_recall "final_json" in
                 if truthy final_json then
                   exec print final_header in print (str final_json)
                 else
                   match default (VStr "") (state0 !! "user_feedback") with
                   | VStr user_feedback =>
                       if String.eqb (lower user_feedback) "exit" then print exit_message
                       else chat_loop svc channel limit (S fuel) state0
                   | _ => raise AttributeError
                   end) w).
    unfold bind at 1. rewrite Hinvoke.
    unfold bind at 1, memory_recall. rewrite Hfalsy, Hfb.
    by destruct (String.eqb_spec (lower feedback) "exit").
  - destruct (chat_loop svc channel limit (S fuel) state1 w1) as [o w'] eqn:Hloop.
    apply chat_loop_head in Hloop as (tr & Hv); [|exact Hlimit].
    by exists o, w', tr.
  - intros ->. specialize (Hroot eq_refl).
    destruct limit as [|limit']; [lia|].
    cbn [chat_loop]. unfold bind at 1, agent_graph_invoke.
    erewrite run_from_raise; [reflexivity|]. by apply step_parse_missing.
Qed.

(** X14. The loop of the driver goes round at most once per line of
    input: when as many iterations are allowed as there are lines to read,
    the run has ended, by returning or by an exception, within them. *)
Theorem driver_ends_with_input {U : UnicodeRepr}
    (svc : Service) (channel : Channel) (limit fuel : nat) (w : World) :
  length (stdin w) <= fuel ->
  exists w',
    run_chat_agent svc channel limit fuel w = (Ret tt, w')
    \/ exists e, run_chat_agent svc channel limit fuel w = (Raise e, w').
Proof.
  intros Hfuel. pose proof (run_chat_agent_total svc channel limit fuel w Hfuel) as Htotal.
  destruct (run_chat_agent svc channel limit fuel w) as [[[]|e|] w'];
    cbn [fst] in Htotal.
  - exists w'. by left.
  - exists w'. right. by exists e.
  - done.
Qed.

(** ** Instances *)

Lemma constant_service_answers (s : string) : answers (constant_service s).
Proof. intros n prompt. by eexists _, _. Qed.

Lemma step_frame_witness :
  memory (snd (step (U := plain_unicode) (constant_service "workflow") RootChannel NDraft ∅ (initial_world [])))
    !! "final_json" = None.
Proof.
  destruct (step_frame (U := plain_unicode) (constant_service "workflow") RootChannel NDraft ∅ (initial_world [])
              (fst (step (U := plain_unicode) (constant_service "workflow") RootChannel NDraft ∅ (initial_world [])))
              (snd (step (U := plain_unicode) (constant_service "workflow") RootChannel NDraft ∅ (initial_world []))))
    as (Hmemory & _).
  - apply surjective_pairing.
  - rewrite Hmemory; [reflexivity|].
    apply not_elem_of_cons. split; [discriminate | apply not_elem_of_nil].
Defined.

Lemma completed_invocation_shape_witness :
  exists rejected yes,
    ["add error handling"; "yes"; "thanks"] = rejected ++ yes :: stdin (snd revision_invocation)
    /\ Forall non_confirming rejected
    /\ confirms yes = true.
Proof.
  destruct (completed_invocation_shape (U := plain_unicode) (constant_service "workflow") KeyChannels 25
              {["requirements" := VStr "build a web scraper"]}
              (initial_world ["add error handling"; "yes"; "thanks"])
              revision_state (snd revision_invocation))
    as (rejected & yes & cs & Hsplit & Hrejected & Hyes & _).
  - vm_compute. reflexivity.
  - exists rejected, yes. split; [exact Hsplit|]. split; [exact Hrejected | exact Hyes].
Defined.

Lemma invocation_completes_witness :
  exists state' w' v,
    agent_graph_invoke (U := plain_unicode) (constant_service "workflow") RootChannel 25
      {["requirements" := VStr "build a web scraper"]}
      (initial_world ["add error handling"; "use python"; "Yes, fine"]) = (Ret state', w')
    /\ stdin w' = []
    /\ memory w' !! "final_json" = Some v
    /\ state' !! "final_json" = Some v.
Proof.
  destruct (invocation_completes (U := plain_unicode) (constant_service "workflow") RootChannel 25
              {["requirements" := VStr "build a web scraper"]}
              (initial_world ["add error handling"; "use python"; "Yes, fine"])
              (VStr "build a web scraper") ["add error handling"; "use python"] "Yes, fine" [])
    as (state' & w' & v & Hrun & Hin & _ & Hfinal & Hstate & _).
  - apply constant_service_answers.
  - reflexivity.
  - reflexivity.
  - repeat constructor.
  - reflexivity.
  - simpl. lia.
  - exists state', w', v. by repeat split.
Defined.

Lemma input_ends_without_confirmation_witness :
  exists w',
    run_chat_agent (U := plain_unicode) (constant_service "workflow") RootChannel 25 1
      (initial_world ["build a web scraper"; "add error handling"; "exit"])
      = (Raise EOFError, w')
    /\ visited w' = NParse :: NDraft :: abandoned_path 2
    /\ memory w' !! "final_json" = None.
Proof.
  destruct (input_ends_without_confirmation (U := plain_unicode) (constant_service "workflow") RootChannel 25 0
              "build a web scraper" ["add error handling"; "exit"])
    as (w' & Hrun & Hvisited & Hfinal & _).
  - apply constant_service_answers.
  - discriminate.
  - repeat constructor.
  - simpl. lia.
  - exists w'. by repeat split.
Defined.


Lemma normal_stop_has_artifact_witness :
  visited (snd left_run) = [] /\ memory (snd left_run) = ∅.
Proof.
  destruct (normal_stop_has_artifact (U := plain_unicode) (constant_service "workflow") RootChannel 25 5
              ["EXIT"] (snd left_run))
    as [(user_req & rest & _ & _ & Hvisited & Hmemory)|[Hartifact _]].
  - vm_compute. reflexivity.
  - by split.
  - vm_compute in Hartifact. discriminate Hartifact.
Defined.

Lemma confirm_accepts_exactly_witness :
  exists state' w',
    step (U := plain_unicode) (constant_service "workflow") RootChannel NConfirm
      {["user_feedback" := VStr "Yes please"]} (initial_world [])
      = (Ret (Some NFinalize, state'), w').
Proof.
  destruct (confirm_accepts_exactly (U := plain_unicode) (constant_service "workflow") RootChannel
              {["user_feedback" := VStr "Yes please"]} (initial_world []) "Yes please")
    as ([_ Hshape] & _).
  - reflexivity.
  - apply Hshape. exists "Y"%char, "e"%char, "s"%char, " please".
    split; [reflexivity|]. split; [by right|]. split; by left.
Defined.

Lemma memory_keys_stay_witness :
  is_Some (memory (snd (run_chat_agent (U := plain_unicode) (constant_service "workflow") RootChannel 25 1
                          (with_memory {["draft" := VStr "old"]}
                             (initial_world ["build a web scraper"; "yes"]))))
             !! "draft").
Proof.
  apply (memory_keys_stay (U := plain_unicode) (constant_service "workflow") RootChannel 25 1
           (with_memory {["draft" := VStr "old"]}
              (initial_world ["build a web scraper"; "yes"]))
           (fst (run_chat_agent (U := plain_unicode) (constant_service "workflow") RootChannel 25 1
                   (with_memory {["draft" := VStr "old"]}
                      (initial_world ["build a web scraper"; "yes"]))))).
  - apply surjective_pairing.
  - by eexists.
Defined.

Lemma requirements_unless_exit_word_witness :
  exists o w' tr,
    run_chat_agent (U := plain_unicode) (constant_service "workflow") RootChannel 25 1
      (initial_world [" exit"; "yes"]) = (o, w')
    /\ visited w' = NParse :: tr
    /\ memory w' !! "requirements" = Some (VStr " exit").
Proof.
  destruct (requirements_unless_exit_word (U := plain_unicode) (constant_service "workflow") RootChannel 24 0
              " exit" ["yes"]) as (_ & Henters & _).
  destruct Henters as (o & w' & tr & Hrun & Hvisited & Hreq & _).
  - discriminate.
  - exists o, w', tr. by repeat split.
Defined.

Lemma draft_failure_before_presentation_witness :
  exists w',
    run_chat_agent (U := plain_unicode) (failing_service "quota exceeded") RootChannel 25 1
      (initial_world ["build a web scraper"; "yes"])
      = (Raise (ServiceError "quota exceeded"), w')
    /\ stdout w' = [welcome_message; requirements_prompt]
    /\ stdin w' = ["yes"].
Proof.
  destruct (draft_failure_before_presentation (U := plain_unicode) (failing_service "quota exceeded")
              RootChannel 25 0 "build a web scraper" ["yes"] (ServiceError "quota exceeded"))
    as (w' & Hrun & Hout & Hin & _).
  - discriminate.
  - intros prompt. reflexivity.
  - lia.
  - exists w'. by repeat split.
Defined.

Lemma empty_artifact_restarts_witness :
  chat_loop (U := plain_unicode) (constant_service "") RootChannel 25 2
    {["requirements" := VStr "build a web scraper"]} (initial_world ["no"; "yes"; "yes"])
  = (Raise (KeyError "requirements"),
     mkWorld (stdin (snd empty_invocation)) (stdout (snd empty_invocation))
             (memory (snd empty_invocation)) (calls (snd empty_invocation))
             (visited (snd empty_invocation) ++ [NParse])).
Proof.
  destruct (empty_artifact_restarts (U := plain_unicode) (constant_service "") RootChannel 25 0
              {["requirements" := VStr "build a web scraper"]}
              (initial_world ["no"; "yes"; "yes"])
              empty_state (snd empty_invocation))
    as (Hloop & _ & Hroot).
  - vm_compute. reflexivity.
  - vm_compute. reflexivity.
  - rewrite Hloop. apply Hroot. reflexivity.
Defined.


Lemma driver_ends_with_input_witness :
  exists w',
    run_chat_agent (U := plain_unicode) (constant_service "workflow") RootChannel 25 2
      (initial_world ["build a web scraper"; "no"]) = (Ret tt, w')
    \/ exists e,
         run_chat_agent (U := plain_unicode) (constant_service "workflow") RootChannel 25 2
           (initial_world ["build a web scraper"; "no"]) = (Raise e, w').
Proof.
  apply (driver_ends_with_input (U := plain_unicode) (constant_service "workflow") RootChannel 25 2
           (initial_world ["build a web scraper"; "no"])).
  simpl. lia.
Defined.
